(** * elife-iiif-deviation-checker: the two utility scripts

    [eom-viewer.py] orders the files of the image cache by a sort key and
    writes numbered symbolic links; [report-parser.py] scans a log of JSON
    lines and prints the article ids whose [pae] reaches a threshold.

    The scripts are embedded shallowly.  A Python [str] is a [string]
    (for text outside ASCII, the bytes of its UTF-8 encoding: splitting on
    ['/'] and [':'] and comparing for order agree on both views).  An
    operation that can raise returns a [result]; the effects of a script
    are the list of [event]s it emits, in order. *)

From Stdlib Require Import Bool Arith ZArith Lia List Ascii String.
From Stdlib Require Import Permutation Sorted DecimalString DecimalNat SpecFloat.
Import ListNotations.

Open Scope list_scope.
Open Scope string_scope.

(** ** The Python builtins the scripts call *)

Module Py.

(** The exception classes the two scripts can meet. *)
Inductive exception : Set :=
| IndexError
| KeyError
| TypeError
| ValueError
| OverflowError
| UnicodeDecodeError
| CalledProcessError.

Definition exception_name (e : exception) : string :=
  match e with
  | IndexError => "IndexError"
  | KeyError => "KeyError"
  | TypeError => "TypeError"
  | ValueError => "ValueError"
  | OverflowError => "OverflowError"
  | UnicodeDecodeError => "UnicodeDecodeError"
  | CalledProcessError => "CalledProcessError"
  end.

Inductive result (A : Type) : Type :=
| Ok (a : A)
| Raise (e : exception).

Arguments Ok {A} a.
Arguments Raise {A} e.

Definition bind {A B : Type} (m : result A) (k : A -> result B) : result B :=
  match m with
  | Ok a => k a
  | Raise e => Raise e
  end.

Notation "x <- m ;; k" := (bind m (fun x => k))
  (at level 61, m at next level, right associativity).

(** [v.startswith(p)] *)
Definition startswith (v p : string) : bool := String.prefix p v.

(** [c in s] for a one-character [c] *)
Fixpoint contains (c : ascii) (s : string) : bool :=
  match s with
  | EmptyString => false
  | String a s' => if Ascii.eqb a c then true else contains c s'
  end.

(** [s.split(sep)] for a one-character separator: every occurrence cuts,
    so the result is never empty and may hold empty fields. *)
Fixpoint split (sep : ascii) (s : string) : list string :=
  match s with
  | EmptyString => [EmptyString]
  | String a s' =>
      if Ascii.eqb a sep then EmptyString :: split sep s'
      else match split sep s' with
           | [] => [String a EmptyString]
           | w :: ws => String a w :: ws
           end
  end.

(** The text of [s] before its first [c] (all of [s] when it has none), and
    the text after it (empty when it has none): the words in which the
    fields of a split are described. *)
Fixpoint before_first (c : ascii) (s : string) : string :=
  match s with
  | EmptyString => EmptyString
  | String a s' => if Ascii.eqb a c then EmptyString else String a (before_first c s')
  end.

Fixpoint after_first (c : ascii) (s : string) : string :=
  match s with
  | EmptyString => EmptyString
  | String a s' => if Ascii.eqb a c then s' else after_first c s'
  end.

(** [l[i]] for [i >= 0] *)
Definition index {A : Type} (l : list A) (i : nat) : result A :=
  match nth_error l i with
  | Some a => Ok a
  | None => Raise IndexError
  end.

(** [l[i:j]] for [0 <= i]: a slice never raises, it is cut at the end. *)
Definition slice {A : Type} (l : list A) (i j : nat) : list A :=
  firstn (j - i) (skipn i l).

(** [sep.join(l)] *)
Definition join (sep : string) (l : list string) : string :=
  String.concat sep l.

(** [str(i)], also ["%s" % i], for [i >= 0] *)
Definition str_of_nat (i : nat) : string :=
  NilEmpty.string_of_uint (Nat.to_uint i).

(** [name] is the decimal numeral of [i]: digits only, read as [i], not
    empty and with no leading zero ("0", "1", "2", ..., "10", ...). *)
Definition decimal_of (name : string) (i : nat) : Prop :=
  option_map Nat.of_uint (NilEmpty.uint_of_string name) = Some i /\
  name <> EmptyString /\
  (String.prefix "0" name = true -> name = "0").

(** [[f(x) for x in l]]: in order, and the first call that raises ends
    the comprehension. *)
Fixpoint map_result {A B : Type} (f : A -> result B) (l : list A)
  : result (list B) :=
  match l with
  | [] => Ok []
  | x :: xs =>
      y <- f x ;;
      ys <- map_result f xs ;;
      Ok (y :: ys)
  end.

(** [enumerate(l)] *)
Definition enumerate {A : Type} (l : list A) : list (nat * A) :=
  combine (seq 0 (List.length l)) l.

(** [sorted(l, key=key)]: the keys are computed first, once per element and
    in order, and the first one that raises aborts the call; then the
    elements are sorted by key with [<] only, and stably. *)
Section SortedBy.
Context {A K : Type}.
Variable lt : K -> K -> bool.

Fixpoint decorate (key : A -> result K) (l : list A) : result (list (K * A)) :=
  match l with
  | [] => Ok []
  | x :: xs =>
      k <- key x ;;
      ks <- decorate key xs ;;
      Ok ((k, x) :: ks)
  end.

Fixpoint insert (x : K * A) (l : list (K * A)) : list (K * A) :=
  match l with
  | [] => [x]
  | y :: ys => if lt (fst y) (fst x) then y :: insert x ys else x :: y :: ys
  end.

Fixpoint sort_decorated (l : list (K * A)) : list (K * A) :=
  match l with
  | [] => []
  | x :: xs => insert x (sort_decorated xs)
  end.

Definition sorted_by (key : A -> result K) (l : list A) : result (list A) :=
  ks <- decorate key l ;;
  Ok (map snd (sort_decorated ks)).

(** [q] may follow [p]: its key is not smaller. *)
Definition not_after (p q : K * A) : Prop := lt (fst q) (fst p) = false.
End SortedBy.

(** Keys that are [str] compare by code point. *)
Definition sorted {A : Type} (key : A -> result string) (l : list A)
  : result (list A) :=
  sorted_by String.ltb key l.

(** [y] may follow [x] in key order. *)
Definition key_le {A : Type} (key : A -> result string) (x y : A) : Prop :=
  exists kx ky, key x = Ok kx /\ key y = Ok ky /\ String.leb kx ky = true.

(** [x] has the key [k]. *)
Definition has_key {A : Type} (key : A -> result string) (k : string) (x : A)
  : bool :=
  match key x with
  | Ok k' => String.eqb k' k
  | Raise _ => false
  end.

(** ASCII whitespace, as [bytes] has it: space, tab, line feed, vertical
    tab, form feed and carriage return. *)
Definition is_space (a : ascii) : bool :=
  Ascii.eqb a " " || Ascii.eqb a "009" || Ascii.eqb a "010" ||
  Ascii.eqb a "011" || Ascii.eqb a "012" || Ascii.eqb a "013".

Fixpoint has_space (s : string) : bool :=
  match s with
  | EmptyString => false
  | String a s' => is_space a || has_space s'
  end.

(** [b.split()] with no separator: cut at every run of whitespace, with no
    empty field, also at the ends. *)
Fixpoint split_whitespace (s : string) : list string :=
  match s with
  | EmptyString => []
  | String a s' =>
      if is_space a then split_whitespace s'
      else
        match s' with
        | EmptyString => [String a EmptyString]
        | String b _ =>
            if is_space b then String a EmptyString :: split_whitespace s'
            else match split_whitespace s' with
                 | [] => [String a EmptyString]
                 | w :: ws => String a w :: ws
                 end
        end
  end.

End Py.

Import Py.

(** ** eom-viewer.py *)

Module EomViewer.

Definition articles_prefix : string := "image-cache/articles".

(** ["image-cache/articles/%s/%s" % (msid, y)] *)
Definition format_key (msid y : string) : string :=
  "image-cache/articles/" ++ msid ++ "/" ++ y.

Definition sorter (v : string) : result string :=
  if startswith v articles_prefix then Ok v
  else
    seg <- index (split "/" v) 1 ;;
    msid <- index (split ":" seg) 1 ;;
    let y := join "/" (slice (split "/" v) 2 3) in
    let z := format_key msid y in
    Ok z.

(** What the script does to the outside world, in order. *)
Inductive event : Set :=
| Print (line : string)
| System (command : string).

Definition system_commands (t : list event) : list string :=
  flat_map (fun e => match e with System c => [c] | Print _ => [] end) t.

(** What [find image-cache/ -type f] writes: each path and a line feed. *)
Fixpoint unlines (paths : list string) : string :=
  match paths with
  | [] => EmptyString
  | p :: ps => p ++ String "010" (unlines ps)
  end.

(** A path that [results.split()] leaves whole: not empty, no whitespace. *)
Definition plain (p : string) : Prop := p <> EmptyString /\ has_space p = false.

(** The lines the script prints, in order. *)
Definition printed_lines (t : list event) : list string :=
  flat_map (fun e => match e with Print l => [l] | System _ => [] end) t.

Section Script.
(** [os.path.abspath], which depends on the working directory. *)
Variable abspath : string -> string.

(** ["cd links && ln -s %s %s" % (os.path.abspath(row), i)] *)
Definition ln_command (row : string) (i : nat) : string :=
  "cd links && ln -s " ++ abspath row ++ " " ++ str_of_nat i.

Definition link_step (ir : nat * string) : list event :=
  let '(i, row) := ir in [Print row; System (ln_command row i)].

Definition link_loop (results : list string) : list event :=
  flat_map link_step (enumerate results).

(** The script from the decoded output of [find] on: the sort comes
    before every effect, so a key that raises leaves no event. *)
Definition main (found : list string) : result (list event) :=
  results <- sorted sorter found ;;
  Ok (System "mkdir -p links && cd links && rm *" :: link_loop results).

(** [v.decode('utf-8')], [UnicodeDecodeError] on bytes that are no UTF-8. *)
Variable decode : string -> result string.

(** The script from line 15 on, given how [subprocess.check_output] ended
    (the bytes [find] wrote, or the exception it raised): the events
    emitted, in order, and how the script ended.  [print] and [os.system]
    are taken not to raise. *)
Definition script (check_output : result string) : list event * result unit :=
  match
    (out <- check_output ;;
     found <- map_result decode (split_whitespace out) ;;
     sorted sorter found)
  with
  | Raise e => ([], Raise e)
  | Ok results =>
      (System "mkdir -p links && cd links && rm *" :: link_loop results, Ok tt)
  end.
End Script.

End EomViewer.

Import EomViewer.

(** ** report-parser.py *)

Module ReportParser.

(** The values [json.loads] builds: [None], [bool], [int], [float], [str],
    [list] and [dict] (its items, one per key). *)
#[warnings="-register-all"]
Inductive json : Type :=
| JNull
| JBool (b : bool)
| JInt (z : Z)
| JFloat (f : spec_float)
| JStr (s : string)
| JList (l : list json)
| JObj (items : list (string * json)).

Definition prec : Z := 53.
Definition emax : Z := 1024.

(** The literal [0.9]: the binary64 number nearest to 9/10. *)
Definition threshold : spec_float := S754_finite false 8106479329266893 (-53).

Fixpoint dict_get (k : string) (items : list (string * json)) : option json :=
  match items with
  | [] => None
  | (k', v) :: rest => if String.eqb k' k then Some v else dict_get k rest
  end.

(** [v[k]] for a [str] key *)
Definition getitem (v : json) (k : string) : result json :=
  match v with
  | JObj items =>
      match dict_get k items with
      | Some x => Ok x
      | None => Raise KeyError
      end
  | _ => Raise TypeError
  end.

Fixpoint is_substring (k s : string) : bool :=
  String.prefix k s ||
  match s with
  | EmptyString => false
  | String _ s' => is_substring k s'
  end.

(** [k in v] for a [str] [k] *)
Definition py_in (k : string) (v : json) : result bool :=
  match v with
  | JObj items => Ok (match dict_get k items with Some _ => true | None => false end)
  | JList l =>
      Ok (existsb (fun x => match x with JStr s => String.eqb s k | _ => false end) l)
  | JStr s => Ok (is_substring k s)
  | _ => Raise TypeError
  end.

(** The truth value of [v] *)
Definition truthy (v : json) : bool :=
  match v with
  | JNull => false
  | JBool b => b
  | JInt z => negb (Z.eqb z 0)
  | JFloat (S754_zero _) => false
  | JFloat _ => true
  | JStr s => negb (String.eqb s "")
  | JList l => match l with [] => false | _ => true end
  | JObj items => match items with [] => false | _ => true end
  end.

(** [float(z)] of an [int]: rounded to nearest even, [OverflowError]
    beyond the largest binary64 number. *)
Definition float_of_int (z : Z) : result spec_float :=
  match binary_normalize prec emax z 0 false with
  | S754_infinity _ => Raise OverflowError
  | f => Ok f
  end.

Section Report.
(** [float(s)] of a [str], [ValueError] when [s] is no number. *)
Variable float_of_str : string -> result spec_float.
(** [str(v)] *)
Variable py_str : json -> string.
(** [json.loads] *)
Variable json_loads : string -> result json.

(** [float(v)] *)
Definition py_float (v : json) : result spec_float :=
  match v with
  | JBool b => float_of_int (if b then 1 else 0)
  | JInt z => float_of_int z
  | JFloat f => Ok f
  | JStr s => float_of_str s
  | _ => Raise TypeError
  end.

(** The condition of the [if], with the short cuts of [and]. *)
Definition pae_reaches_threshold (result_line : json) : result bool :=
  has <- py_in "pae" result_line ;;
  if has then
    pae <- getitem result_line "pae" ;;
    if truthy pae then
      f <- py_float pae ;;
      Ok (SFleb threshold f)
    else Ok false
  else Ok false.

(** One turn of the loop on the decoded line: the value whose [str] is
    written, if one is. *)
Definition report_line (json_line : json) : result (option json) :=
  result_line <- getitem json_line "message" ;;
  c <- pae_reaches_threshold result_line ;;
  if c then
    id <- getitem result_line "article-id" ;;
    Ok (Some id)
  else Ok None.

(** The loop over the lines: what was written to [stdout] and how the
    script ended. *)
Fixpoint report (lines : list string) : list string * result unit :=
  match lines with
  | [] => ([], Ok tt)
  | line :: rest =>
      match (json_line <- json_loads line ;; report_line json_line) with
      | Raise e => ([], Raise e)
      | Ok None => report rest
      | Ok (Some id) =>
          let '(out, r) := report rest in (py_str id :: " " :: out, r)
      end
  end.
End Report.

End ReportParser.

Import ReportParser.

(** ** Strings: append, [contains] and [split] *)

Lemma append_assoc (a b c : string) : (a ++ b) ++ c = a ++ b ++ c.
Proof. induction a as [|x a IH]; simpl; [reflexivity | now rewrite IH]. Qed.

Lemma append_empty_r (a : string) : a ++ "" = a.
Proof. induction a as [|x a IH]; simpl; [reflexivity | now rewrite IH]. Qed.

Lemma contains_app (c : ascii) (a b : string) :
  contains c (a ++ b) = contains c a || contains c b.
Proof.
  induction a as [|x a IH]; simpl; [reflexivity|].
  destruct (Ascii.eqb x c); [reflexivity | exact IH].
Qed.

Lemma split_not_nil (c : ascii) (s : string) : split c s <> [].
Proof.
  destruct s as [|x s]; simpl; [discriminate|].
  destruct (Ascii.eqb x c); [discriminate|].
  destruct (split c s); discriminate.
Qed.

(** The first field is the text before the first separator, and the other
    fields are the fields of the text after it. *)
Lemma split_unfold (c : ascii) (s : string) :
  split c s =
  before_first c s :: (if contains c s then split c (after_first c s) else []).
Proof.
  induction s as [|x s IH]; simpl; [reflexivity|].
  destruct (Ascii.eqb x c); [reflexivity|].
  rewrite IH. reflexivity.
Qed.

Lemma before_first_absent (c : ascii) (s : string) :
  contains c s = false -> before_first c s = s.
Proof.
  induction s as [|x s IH]; simpl; [reflexivity|].
  destruct (Ascii.eqb x c); [discriminate|].
  intros H. now rewrite IH.
Qed.

Lemma before_first_app (c : ascii) (a b : string) :
  contains c a = false -> before_first c (a ++ String c b) = a.
Proof.
  induction a as [|x a IH]; simpl.
  - now rewrite Ascii.eqb_refl.
  - destruct (Ascii.eqb x c); [discriminate|].
    intros H. now rewrite IH.
Qed.

Lemma after_first_app (c : ascii) (a b : string) :
  contains c a = false -> after_first c (a ++ String c b) = b.
Proof.
  induction a as [|x a IH]; simpl.
  - now rewrite Ascii.eqb_refl.
  - destruct (Ascii.eqb x c); [discriminate | exact IH].
Qed.

Lemma split_absent (c : ascii) (s : string) :
  contains c s = false -> split c s = [s].
Proof.
  intros H. rewrite split_unfold, H. now rewrite before_first_absent.
Qed.

Lemma split_app (c : ascii) (a b : string) :
  contains c a = false -> split c (a ++ String c b) = a :: split c b.
Proof.
  intros H. rewrite split_unfold, contains_app, H. simpl.
  rewrite Ascii.eqb_refl. now rewrite before_first_app, after_first_app.
Qed.

(** The field of index 1, when there is one. *)
Lemma split_second (c : ascii) (s : string) :
  nth_error (split c s) 1 =
  if contains c s then Some (before_first c (after_first c s)) else None.
Proof.
  rewrite split_unfold. destruct (contains c s); [|reflexivity].
  simpl. now rewrite split_unfold.
Qed.

Lemma split_length_lt_2 (c : ascii) (s : string) :
  List.length (split c s) < 2 <-> contains c s = false.
Proof.
  rewrite split_unfold. destruct (contains c s); simpl.
  - split; [|discriminate]. intros H.
    pose proof (split_not_nil c (after_first c s)) as Hn.
    destruct (split c (after_first c s)); [congruence | simpl in H; lia].
  - split; [reflexivity | lia].
Qed.

Example sorter_ex1 :
  sorter "image-cache/foo:123/bar/baz" = Ok "image-cache/articles/123/bar".
Proof. reflexivity. Qed.

Example sorter_ex2 : sorter "a/b" = Raise IndexError.
Proof. reflexivity. Qed.

Example sorter_ex3 : sorter "a/b:c" = Ok "image-cache/articles/c/".
Proof. reflexivity. Qed.

Example sorter_ex4 : sorter "r/c:1:2/s" = Ok "image-cache/articles/1/s".
Proof. reflexivity. Qed.

(** ** The sort key of eom-viewer.py *)

Lemma index_Ok {A : Type} (l : list A) (i : nat) (a : A) :
  index l i = Ok a <-> nth_error l i = Some a.
Proof.
  unfold index. destruct (nth_error l i); split; congruence.
Qed.

Lemma index_Raise {A : Type} (l : list A) (i : nat) (e : exception) :
  index l i = Raise e <-> nth_error l i = None /\ e = IndexError.
Proof.
  unfold index. destruct (nth_error l i); split.
  - discriminate.
  - intros [H1 H2]; discriminate.
  - intros [= <-]. split; reflexivity.
  - intros [_ ->]. reflexivity.
Qed.

(** The second branch of [sorter], with the fields named in words: the
    identifier is the text between the first and the second colon of the
    second segment. *)
Lemma sorter_other_branch (v seg : string) :
  startswith v articles_prefix = false ->
  nth_error (split "/" v) 1 = Some seg ->
  contains ":" seg = true ->
  sorter v =
  Ok (format_key (before_first ":" (after_first ":" seg))
                 (join "/" (slice (split "/" v) 2 3))).
Proof.
  intros Hp Hseg Hc. unfold sorter. rewrite Hp.
  apply index_Ok in Hseg. rewrite Hseg. cbn [bind].
  assert (Hm : index (split ":" seg) 1 =
               Ok (before_first ":" (after_first ":" seg))).
  { apply index_Ok. rewrite split_second, Hc. reflexivity. }
  rewrite Hm. reflexivity.
Qed.

(** When [sorter] raises, and what. *)
Lemma sorter_raises_iff (v : string) (e : exception) :
  sorter v = Raise e <->
  e = IndexError /\ startswith v articles_prefix = false /\
  (contains "/" v = false \/
   exists seg, nth_error (split "/" v) 1 = Some seg /\ contains ":" seg = false).
Proof.
  unfold sorter. destruct (startswith v articles_prefix) eqn:Hp.
  - split; [discriminate | intros (_ & H & _); discriminate].
  - unfold index at 1. rewrite split_second.
    destruct (contains "/" v) eqn:Hs; cbn [bind].
    + unfold index. rewrite split_second.
      destruct (contains ":" (before_first "/" (after_first "/" v))) eqn:Hc;
        cbn [bind].
      * split; [discriminate|].
        intros (_ & _ & [H | (seg & Hseg & Hn)]); [discriminate|].
        injection Hseg as Hseg. subst seg. congruence.
      * split.
        -- intros [= <-]. repeat split. right. eauto.
        -- intros (-> & _). reflexivity.
    + split.
      * intros [= <-]. auto.
      * intros (-> & _). reflexivity.
Qed.

Lemma startswith_format_key (msid y : string) :
  startswith (format_key msid y) articles_prefix = true.
Proof. reflexivity. Qed.

(** Every key begins with the literal prefix. *)
Lemma sorter_key_prefix (v k : string) :
  sorter v = Ok k -> startswith k articles_prefix = true.
Proof.
  unfold sorter. destruct (startswith v articles_prefix) eqn:Hp.
  - intros [= <-]. exact Hp.
  - destruct (index (split "/" v) 1) as [seg|]; cbn [bind]; [|discriminate].
    destruct (index (split ":" seg) 1) as [msid|]; cbn [bind]; [|discriminate].
    intros [= <-]. apply startswith_format_key.
Qed.

Lemma sorter_first_branch (v : string) :
  startswith v articles_prefix = true -> sorter v = Ok v.
Proof.
  intros Hp. unfold sorter. rewrite Hp. reflexivity.
Qed.

(** C1, as stated, fails: when the identifier after the colon has a colon
    of its own, as in "image-cache/foo:12:3/bar/baz" with collection "foo",
    ID "12:3" and sub "bar", the key holds "12", not the ID. *)
Lemma collection_path_id_with_colon :
  "image-cache/foo:12:3/bar/baz" =
    "image-cache" ++ "/" ++ "foo" ++ ":" ++ "12:3" ++ "/" ++ "bar" ++ "/baz" /\
  contains "/" "image-cache" = false /\
  contains "/" "foo" = false /\ contains ":" "foo" = false /\
  contains "/" "12:3" = false /\ contains "/" "bar" = false /\
  startswith "image-cache/foo:12:3/bar/baz" articles_prefix = false /\
  nth_error (split "/" "image-cache/foo:12:3/bar/baz") 1 = Some "foo:12:3" /\
  after_first ":" "foo:12:3" = "12:3" /\
  nth_error (split "/" "image-cache/foo:12:3/bar/baz") 2 = Some "bar" /\
  sorter "image-cache/foo:12:3/bar/baz" = Ok "image-cache/articles/12/bar" /\
  sorter "image-cache/foo:12:3/bar/baz" <>
  Ok ("image-cache/articles/" ++ "12:3" ++ "/" ++ "bar").
Proof.
  repeat split. discriminate.
Qed.

(** C1, amended. A path [root/collection:ID/sub/...] (each of the four
    names one path segment) whose second segment has exactly one colon, the
    one that separates collection and ID, and that does not begin with
    "image-cache/articles" has the sort key "image-cache/articles/ID/sub". *)
Theorem sorter_remaps_collection_path (root coll id sub rest : string) :
  contains "/" root = false ->
  contains "/" coll = false -> contains ":" coll = false ->
  contains "/" id = false -> contains ":" id = false ->
  contains "/" sub = false ->
  rest = "" \/ startswith rest "/" = true ->
  startswith (root ++ "/" ++ coll ++ ":" ++ id ++ "/" ++ sub ++ rest)
             articles_prefix = false ->
  sorter (root ++ "/" ++ coll ++ ":" ++ id ++ "/" ++ sub ++ rest) =
  Ok ("image-cache/articles/" ++ id ++ "/" ++ sub).
Proof.
  intros Hroot Hcoll Hcoll' Hid Hid' Hsub Hrest Hp.
  assert (Hsplit : exists more,
    split "/" (root ++ "/" ++ coll ++ ":" ++ id ++ "/" ++ sub ++ rest) =
    root :: (coll ++ ":" ++ id) :: sub :: more).
  { cbn [append]. rewrite (split_app "/" root) by exact Hroot.
    replace (coll ++ String ":" (id ++ String "/" (sub ++ rest)))
      with ((coll ++ String ":" id) ++ String "/" (sub ++ rest))
      by (rewrite append_assoc; reflexivity).
    rewrite split_app.
    2:{ rewrite contains_app, Hcoll. simpl. exact Hid. }
    destruct Hrest as [-> | Hr].
    - exists []. rewrite append_empty_r, split_absent by exact Hsub. reflexivity.
    - destruct rest as [|x r]; [discriminate|].
      unfold startswith in Hr. cbn [String.prefix] in Hr.
      destruct (ascii_dec "/" x) as [<-|]; [|discriminate].
      exists (split "/" r). rewrite split_app by exact Hsub. reflexivity. }
  destruct Hsplit as [more Hsplit].
  rewrite (sorter_other_branch _ (coll ++ ":" ++ id)).
  - rewrite Hsplit. cbn [append]. rewrite after_first_app by exact Hcoll'.
    rewrite before_first_absent by exact Hid'. reflexivity.
  - exact Hp.
  - rewrite Hsplit. reflexivity.
  - rewrite contains_app. simpl. apply orb_true_r.
Qed.

Lemma sorter_remaps_collection_path_witness :
  sorter "image-cache/foo:123/bar/baz" = Ok "image-cache/articles/123/bar".
Proof.
  apply (sorter_remaps_collection_path "image-cache" "foo" "123" "bar" "/baz");
    try reflexivity.
  right; reflexivity.
Defined.

(** C2. A path that begins with "image-cache/articles" is its own sort
    key. *)
Theorem sorter_keeps_articles_path (v : string) :
  startswith v articles_prefix = true -> sorter v = Ok v.
Proof.
  exact (sorter_first_branch v).
Qed.

Lemma sorter_keeps_articles_path_witness :
  sorter "image-cache/articles/123/bar" = Ok "image-cache/articles/123/bar".
Proof.
  apply sorter_keeps_articles_path. reflexivity.
Defined.

(** C3, as stated, fails: with a second colon in the second segment the
    identifier stops there. *)
Lemma identifier_stops_at_second_colon :
  startswith "r/c:1:2/s" articles_prefix = false /\
  nth_error (split "/" "r/c:1:2/s") 1 = Some "c:1:2" /\
  contains ":" "c:1:2" = true /\
  after_first ":" "c:1:2" = "1:2" /\
  sorter "r/c:1:2/s" = Ok (format_key "1" "s") /\
  sorter "r/c:1:2/s" <>
  Ok (format_key (after_first ":" "c:1:2") (join "/" (slice (split "/" "r/c:1:2/s") 2 3))).
Proof.
  repeat split; discriminate.
Qed.

(** C3, amended. For a path that does not begin with
    "image-cache/articles" and whose second segment has a colon, the
    identifier in the sort key is the text of that segment after its first
    colon and before its next one (up to the end of the segment when there
    is no other colon). *)
Theorem sorter_identifier_between_colons (v seg : string) :
  startswith v articles_prefix = false ->
  nth_error (split "/" v) 1 = Some seg ->
  contains ":" seg = true ->
  sorter v =
  Ok ("image-cache/articles/" ++ before_first ":" (after_first ":" seg) ++ "/"
        ++ join "/" (slice (split "/" v) 2 3)).
Proof.
  exact (sorter_other_branch v seg).
Qed.

Lemma sorter_identifier_between_colons_witness :
  sorter "r/c:1:2/s" = Ok "image-cache/articles/1/s".
Proof.
  apply (sorter_identifier_between_colons "r/c:1:2/s" "c:1:2"); reflexivity.
Defined.

(** C4, as stated, fails: on "a/b" the sorter raises the builtin
    [IndexError], and no exception of the script bears the name
    "MalformedPathError"; on "a/b:c", which has fewer than 3 segments, it
    raises nothing. *)
Lemma malformed_path_error_absent :
  (startswith "a/b" articles_prefix = false /\
   List.length (split "/" "a/b") < 3 /\
   sorter "a/b" = Raise IndexError /\
   ~ exists e, sorter "a/b" = Raise e /\
               exception_name e = "MalformedPathError") /\
  (startswith "a/b:c" articles_prefix = false /\
   List.length (split "/" "a/b:c") < 3 /\
   sorter "a/b:c" = Ok "image-cache/articles/c/").
Proof.
  repeat split; try (simpl; lia).
  intros (e & _ & Hname). destruct e; discriminate.
Qed.

(** C4, amended. For a path that does not begin with
    "image-cache/articles" and has fewer than 2 segments, or whose second
    segment lacks a colon, computing the sort key fails with Python's
    [IndexError]. *)
Theorem sorter_raises_index_error (v : string) :
  startswith v articles_prefix = false ->
  (List.length (split "/" v) < 2 \/
   exists seg, nth_error (split "/" v) 1 = Some seg /\ contains ":" seg = false) ->
  sorter v = Raise IndexError.
Proof.
  intros Hp H. apply sorter_raises_iff. repeat split; [exact Hp|].
  destruct H as [H | H]; [left | right; exact H].
  now apply split_length_lt_2.
Qed.

Lemma sorter_raises_index_error_witness :
  sorter "a/b" = Raise IndexError /\ sorter "a" = Raise IndexError.
Proof.
  split.
  - apply (sorter_raises_index_error "a/b"); [reflexivity|].
    right. exists "b". split; reflexivity.
  - apply (sorter_raises_index_error "a"); [reflexivity|].
    left. simpl. lia.
Defined.

(** Where [sorter] gives a key: a path has exactly one key when it begins
    with "image-cache/articles" or has a second segment with a colon, and
    otherwise the call fails with [IndexError] and gives none. *)
Theorem sorter_key_unique_when_defined (v : string) :
  (forall k1 k2, sorter v = Ok k1 -> sorter v = Ok k2 -> k1 = k2) /\
  ((exists k, sorter v = Ok k /\ forall k', sorter v = Ok k' -> k' = k) <->
   (startswith v articles_prefix = true \/
    exists seg, nth_error (split "/" v) 1 = Some seg /\ contains ":" seg = true)) /\
  ((exists k, sorter v = Ok k) \/ sorter v = Raise IndexError).
Proof.
  split; [congruence|]. split.
  - split.
    + intros (k & Hk & _).
      destruct (startswith v articles_prefix) eqn:Hp; [now left | right].
      destruct (nth_error (split "/" v) 1) as [seg|] eqn:Hseg.
      * exists seg. split; [reflexivity|].
        destruct (contains ":" seg) eqn:Hc; [reflexivity|].
        assert (Hr : sorter v = Raise IndexError); [|congruence].
        apply sorter_raises_iff. repeat split; [exact Hp|].
        right. exists seg. auto.
      * rewrite split_second in Hseg.
        destruct (contains "/" v) eqn:Hs; [discriminate|].
        assert (Hr : sorter v = Raise IndexError); [|congruence].
        apply sorter_raises_iff. repeat split; [exact Hp | now left].
    + intros [Hp | (seg & Hseg & Hc)].
      * exists v. rewrite (sorter_first_branch v Hp).
        split; [reflexivity | congruence].
      * destruct (startswith v articles_prefix) eqn:Hp.
        -- exists v. rewrite (sorter_first_branch v Hp).
           split; [reflexivity | congruence].
        -- rewrite (sorter_other_branch v seg Hp Hseg Hc).
           eexists. split; [reflexivity | congruence].
  - destruct (sorter v) as [k|e] eqn:H; [left; eauto | right].
    apply sorter_raises_iff in H. destruct H as [-> _]. reflexivity.
Qed.

(** C9. On every path where it is defined the sorter is idempotent: a key
    begins with "image-cache/articles", so it is its own key. *)
Theorem sorter_idempotent (v k : string) :
  sorter v = Ok k ->
  startswith k articles_prefix = true /\ sorter k = Ok k.
Proof.
  intros H. apply sorter_key_prefix in H. split; [exact H|].
  now apply sorter_first_branch.
Qed.

Lemma sorter_idempotent_witness :
  startswith "image-cache/articles/123/bar" articles_prefix = true /\
  sorter "image-cache/articles/123/bar" = Ok "image-cache/articles/123/bar".
Proof.
  apply (sorter_idempotent "image-cache/foo:123/bar/baz"). reflexivity.
Defined.

(** C10, as stated, fails: a path of two segments that begins with
    "image-cache/articles" is returned as it is, which is no key of the
    form "image-cache/articles/<identifier>/". *)
Lemma two_segment_articles_path_kept :
  split "/" "image-cache/articles:5" = ["image-cache"; "articles:5"] /\
  contains ":" "articles:5" = true /\
  sorter "image-cache/articles:5" = Ok "image-cache/articles:5" /\
  ~ exists msid, sorter "image-cache/articles:5" =
                 Ok ("image-cache/articles/" ++ msid ++ "/").
Proof.
  repeat split. intros [msid H]. discriminate H.
Qed.

(** C10, amended. For a path of exactly two segments that does not begin
    with "image-cache/articles" and whose second segment has a colon, the
    sorter raises nothing: the slice [2:3] is empty, so [y] is the empty
    string, and the key is "image-cache/articles/<identifier>/". *)
Theorem sorter_two_segments (v s1 s2 : string) :
  split "/" v = [s1; s2] ->
  contains ":" s2 = true ->
  startswith v articles_prefix = false ->
  join "/" (slice (split "/" v) 2 3) = "" /\
  exists msid,
    index (split ":" s2) 1 = Ok msid /\
    sorter v = Ok ("image-cache/articles/" ++ msid ++ "/").
Proof.
  intros Hs Hc Hp. split; [rewrite Hs; reflexivity|].
  exists (before_first ":" (after_first ":" s2)). split.
  - apply index_Ok. rewrite split_second, Hc. reflexivity.
  - rewrite (sorter_other_branch v s2 Hp); [| rewrite Hs; reflexivity | exact Hc].
    rewrite Hs. reflexivity.
Qed.

Lemma sorter_two_segments_witness :
  join "/" (slice (split "/" "a/b:c") 2 3) = "" /\
  exists msid,
    index (split ":" "b:c") 1 = Ok msid /\
    sorter "a/b:c" = Ok ("image-cache/articles/" ++ msid ++ "/").
Proof.
  apply (sorter_two_segments "a/b:c" "a" "b:c"); reflexivity.
Defined.

(** ** [sorted]: a permutation, in key order, stable *)

Section SortedByFacts.
Context {A K : Type}.
Variable lt : K -> K -> bool.
Variable key : A -> result K.

Lemma decorate_spec (l : list A) (ks : list (K * A)) :
  decorate key l = Ok ks ->
  map snd ks = l /\ Forall (fun p => key (snd p) = Ok (fst p)) ks.
Proof.
  revert ks. induction l as [|x xs IH]; simpl; intros ks.
  - intros [= <-]. split; [reflexivity | constructor].
  - destruct (key x) as [k|] eqn:Hk; cbn [bind]; [|discriminate].
    destruct (decorate key xs) as [ks'|]; cbn [bind]; [|discriminate].
    intros [= <-]. destruct (IH ks' eq_refl) as [Hm Hf].
    split; [simpl; now rewrite Hm | constructor; [exact Hk | exact Hf]].
Qed.

Lemma decorate_total (l : list A) :
  Forall (fun x => exists k, key x = Ok k) l ->
  exists ks, decorate key l = Ok ks.
Proof.
  induction 1 as [|x xs [k Hk] _ [ks IH]]; simpl.
  - eauto.
  - rewrite Hk, IH. cbn [bind]. eauto.
Qed.

Lemma insert_perm (x : K * A) (l : list (K * A)) :
  Permutation (x :: l) (insert lt x l).
Proof.
  induction l as [|y ys IH]; simpl; [reflexivity|].
  destruct (lt (fst y) (fst x)); [|reflexivity].
  rewrite perm_swap. now constructor.
Qed.

Lemma sort_decorated_perm (l : list (K * A)) :
  Permutation l (sort_decorated lt l).
Proof.
  induction l as [|x xs IH]; simpl; [constructor|].
  rewrite <- insert_perm. now constructor.
Qed.

(** Order: no element is followed by a smaller one. *)
Hypothesis lt_asym : forall a b, lt a b = true -> lt b a = false.

Lemma insert_sorted (x : K * A) (l : list (K * A)) :
  Sorted (not_after lt) l -> Sorted (not_after lt) (insert lt x l).
Proof.
  induction 1 as [|y ys Hs IH Hh]; simpl.
  - repeat constructor.
  - destruct (lt (fst y) (fst x)) eqn:Hyx.
    + constructor; [exact IH|].
      destruct Hh as [|z zs Hz]; simpl.
      * constructor. now apply lt_asym.
      * destruct (lt (fst z) (fst x)); constructor;
          [exact Hz | now apply lt_asym].
    + repeat constructor; assumption.
Qed.

Lemma sort_decorated_sorted (l : list (K * A)) :
  Sorted (not_after lt) (sort_decorated lt l).
Proof.
  induction l as [|x xs IH]; simpl; [constructor | now apply insert_sorted].
Qed.

(** Stability: the elements selected by a test on the key that no two
    keys of different rank pass keep their order. *)
Variable same : K -> bool.
Hypothesis same_not_lt :
  forall a b, same a = true -> same b = true -> lt a b = false.

Lemma insert_filter (x : K * A) (l : list (K * A)) :
  filter (fun p => same (fst p)) (insert lt x l) =
  filter (fun p => same (fst p)) (x :: l).
Proof.
  induction l as [|y ys IH]; [reflexivity|].
  cbn [insert]. destruct (lt (fst y) (fst x)) eqn:Hyx; [|reflexivity].
  cbn [filter] in *. rewrite IH.
  destruct (same (fst y)) eqn:Hy, (same (fst x)) eqn:Hx; try reflexivity.
  rewrite (same_not_lt _ _ Hy Hx) in Hyx. discriminate.
Qed.

Lemma sort_decorated_filter (l : list (K * A)) :
  filter (fun p => same (fst p)) (sort_decorated lt l) =
  filter (fun p => same (fst p)) l.
Proof.
  induction l as [|x xs IH]; [reflexivity|].
  cbn [sort_decorated]. rewrite insert_filter. cbn [filter]. now rewrite IH.
Qed.
End SortedByFacts.

Lemma ltb_asym (a b : string) : String.ltb a b = true -> String.ltb b a = false.
Proof.
  unfold String.ltb. rewrite (String.compare_antisym b a).
  destruct (String.compare a b); simpl; congruence.
Qed.

Lemma ltb_irrefl (a : string) : String.ltb a a = false.
Proof.
  destruct (String.ltb a a) eqn:H; [|reflexivity].
  now rewrite (ltb_asym a a H) in H.
Qed.

Lemma ltb_false_leb (a b : string) : String.ltb b a = false <-> String.leb a b = true.
Proof.
  unfold String.ltb, String.leb. rewrite (String.compare_antisym b a).
  destruct (String.compare a b); simpl; split; congruence.
Qed.

Section SortedFacts.
Context {A : Type}.
Variable key : A -> result string.

Lemma filter_decorated (k : string) (ks : list (string * A)) :
  Forall (fun p => key (snd p) = Ok (fst p)) ks ->
  filter (has_key key k) (map snd ks) =
  map snd (filter (fun p => String.eqb (fst p) k) ks).
Proof.
  induction 1 as [|p ps Hp _ IH]; [reflexivity|].
  cbn [map filter]. unfold has_key at 1. rewrite Hp, IH.
  now destruct (String.eqb (fst p) k).
Qed.

Lemma sorted_inv (l l' : list A) :
  sorted key l = Ok l' ->
  exists ks, decorate key l = Ok ks /\ map snd ks = l /\
    Forall (fun p => key (snd p) = Ok (fst p)) ks /\
    l' = map snd (sort_decorated String.ltb ks).
Proof.
  unfold sorted, sorted_by.
  destruct (decorate key l) as [ks|] eqn:Hd; cbn [bind]; [|discriminate].
  intros [= <-]. exists ks. destruct (decorate_spec key l ks Hd) as [Hm Hf].
  auto.
Qed.

(** The result is a rearrangement of the input. *)
Lemma sorted_perm (l l' : list A) :
  sorted key l = Ok l' -> Permutation l l'.
Proof.
  intros H. destruct (sorted_inv l l' H) as (ks & _ & Hm & _ & ->).
  rewrite <- Hm. apply Permutation_map, sort_decorated_perm.
Qed.

(** Elements of equal key keep their input order. *)
Lemma sorted_stable (l l' : list A) (k : string) :
  sorted key l = Ok l' ->
  filter (has_key key k) l' = filter (has_key key k) l.
Proof.
  intros H. destruct (sorted_inv l l' H) as (ks & _ & Hm & Hf & ->).
  rewrite <- Hm. rewrite !filter_decorated.
  - f_equal. apply (sort_decorated_filter String.ltb (fun a => String.eqb a k)).
    intros a b Ha Hb. apply String.eqb_eq in Ha, Hb. subst.
    apply ltb_irrefl.
  - exact Hf.
  - eapply Permutation_Forall; [apply sort_decorated_perm | exact Hf].
Qed.

(** The keys of the result ascend. *)
Lemma ascending_map_snd (ks : list (string * A)) :
  Forall (fun p => key (snd p) = Ok (fst p)) ks ->
  Sorted (not_after String.ltb) ks ->
  Sorted (key_le key) (map snd ks).
Proof.
  intros Hf Hs. induction Hs as [|p ps Hs IH Hh]; simpl; [constructor|].
  inversion Hf as [|? ? Hp Hps]; subst.
  constructor; [now apply IH|].
  destruct Hh as [|q qs Hq]; simpl; constructor.
  inversion Hps as [|? ? Hq' _]; subst.
  exists (fst p), (fst q). repeat split; try assumption.
  now apply ltb_false_leb.
Qed.

Lemma sorted_ascending (l l' : list A) :
  sorted key l = Ok l' -> Sorted (key_le key) l'.
Proof.
  intros H. destruct (sorted_inv l l' H) as (ks & _ & _ & Hf & ->).
  apply ascending_map_snd.
  - eapply Permutation_Forall; [apply sort_decorated_perm | exact Hf].
  - apply sort_decorated_sorted, ltb_asym.
Qed.
End SortedFacts.

(** C5. The two paths of the example have the same sort key
    "image-cache/articles/123/bar", and [sorted] keeps them in their input
    order; in general elements of equal key keep their input order. *)
Theorem example_sort_is_stable :
  sorter "image-cache/foo:123/bar/baz" = Ok "image-cache/articles/123/bar" /\
  sorter "image-cache/articles/123/bar" = Ok "image-cache/articles/123/bar" /\
  sorted sorter ["image-cache/foo:123/bar/baz"; "image-cache/articles/123/bar"] =
  Ok ["image-cache/foo:123/bar/baz"; "image-cache/articles/123/bar"] /\
  sorted sorter ["image-cache/articles/123/bar"; "image-cache/foo:123/bar/baz"] =
  Ok ["image-cache/articles/123/bar"; "image-cache/foo:123/bar/baz"] /\
  (forall (l l' : list string) (k : string),
     sorted sorter l = Ok l' ->
     filter (has_key sorter k) l' = filter (has_key sorter k) l).
Proof.
  repeat split. intros l l' k. apply sorted_stable.
Qed.

(** ** The links of eom-viewer.py *)

Example str_of_nat_0 : str_of_nat 0 = "0".
Proof. reflexivity. Qed.

Example str_of_nat_12 : str_of_nat 12 = "12".
Proof. reflexivity. Qed.

(** Different numbers have different names. *)
Lemma str_of_nat_inj (i j : nat) : str_of_nat i = str_of_nat j -> i = j.
Proof.
  unfold str_of_nat. intros H.
  apply (f_equal NilEmpty.uint_of_string) in H.
  rewrite !NilEmpty.usu in H. injection H as H.
  apply (f_equal Nat.of_uint) in H.
  now rewrite !DecimalNat.Unsigned.of_to in H.
Qed.

Lemma nth_error_combine_seq {A : Type} (l : list A) (n i : nat) (a : A) :
  nth_error l i = Some a ->
  nth_error (combine (seq n (List.length l)) l) i = Some (n + i, a).
Proof.
  revert n i. induction l as [|x xs IH]; intros n [|i]; simpl; try discriminate.
  - intros [= ->]. now rewrite Nat.add_0_r.
  - intros H. rewrite (IH (S n) i H). f_equal. f_equal. lia.
Qed.

Lemma nth_error_enumerate {A : Type} (l : list A) (i : nat) (a : A) :
  nth_error l i = Some a -> nth_error (enumerate l) i = Some (i, a).
Proof.
  intros H. unfold enumerate. now rewrite (nth_error_combine_seq l 0 i a H).
Qed.

Lemma length_enumerate {A : Type} (l : list A) :
  List.length (enumerate l) = List.length l.
Proof.
  unfold enumerate. rewrite length_combine, length_seq. apply Nat.min_id.
Qed.

Section ScriptFacts.
Variable abspath : string -> string.

(** One command per row, in the order of the rows. *)
Lemma system_commands_link_loop (results : list string) :
  system_commands (link_loop abspath results) =
  map (fun ir => ln_command abspath (snd ir) (fst ir)) (enumerate results).
Proof.
  unfold link_loop. induction (enumerate results) as [|[i row] rest IH];
    [reflexivity|].
  simpl. f_equal. exact IH.
Qed.
End ScriptFacts.

(** The numeral that [str] writes is the decimal numeral of the number. *)
Lemma str_of_nat_decimal (i : nat) : decimal_of (str_of_nat i) i.
Proof.
  unfold decimal_of, str_of_nat.
  assert (Hn : Decimal.unorm (Nat.to_uint i) = Nat.to_uint i).
  { rewrite <- (DecimalNat.Unsigned.to_of (Nat.to_uint i)).
    now rewrite DecimalNat.Unsigned.of_to. }
  split; [|split].
  - rewrite NilEmpty.usu. simpl. now rewrite DecimalNat.Unsigned.of_to.
  - destruct (Nat.to_uint i) eqn:Hd; try discriminate;
      try (unfold Decimal.unorm in Hn; simpl in Hn; discriminate Hn).
  - destruct (Nat.to_uint i) as [|d|d|d|d|d|d|d|d|d|d] eqn:Hd;
      try discriminate.
    intros _. rewrite DecimalFacts.unorm_D0 in Hn.
    unfold Decimal.unorm in Hn.
    destruct (Decimal.nzhead d) eqn:Hz;
      try (exfalso; apply (DecimalFacts.nzhead_nonzero d d); congruence).
    injection Hn as <-. reflexivity.
Qed.

Section TraceFacts.
Variable abspath : string -> string.

(** The two events of each turn of the loop, at their places. *)
Lemma nth_error_link_steps (l : list (nat * string)) (i : nat) (p : nat * string) :
  nth_error l i = Some p ->
  nth_error (flat_map (link_step abspath) l) (2 * i) = Some (Print (snd p)) /\
  nth_error (flat_map (link_step abspath) l) (1 + 2 * i) =
  Some (System (ln_command abspath (snd p) (fst p))).
Proof.
  revert i. induction l as [|[j row] l IH]; intros [|i]; try discriminate.
  - intros [= <-]. split; reflexivity.
  - intros Hi. destruct (IH i Hi) as [H1 H2].
    replace (2 * S i) with (S (S (2 * i))) by lia.
    replace (1 + S (S (2 * i))) with (S (S (1 + 2 * i))) by lia.
    cbn [flat_map link_step List.app nth_error]. split; assumption.
Qed.

Lemma length_link_loop (results : list string) :
  List.length (link_loop abspath results) = 2 * List.length results.
Proof.
  unfold link_loop. rewrite <- (length_enumerate results).
  induction (enumerate results) as [|[i row] rest IH]; [reflexivity|].
  cbn [flat_map link_step List.app List.length]. rewrite IH. lia.
Qed.
End TraceFacts.

(** C7. A file whose name has a character that the shell reads (here a
    parenthesis) reaches [os.system] as it is, with no quoting: the command
    for it is the text below, which the shell refuses, so that no link
    named 0 is made for the file. *)
Theorem unquoted_path_in_link_command :
  sorted sorter ["image-cache/articles/1/fig(1).jpg"] =
    Ok ["image-cache/articles/1/fig(1).jpg"] /\
  main (fun row => "/srv/" ++ row) ["image-cache/articles/1/fig(1).jpg"] =
    Ok [System "mkdir -p links && cd links && rm *";
        Print "image-cache/articles/1/fig(1).jpg";
        System "cd links && ln -s /srv/image-cache/articles/1/fig(1).jpg 0"] /\
  contains "("
    "cd links && ln -s /srv/image-cache/articles/1/fig(1).jpg 0" = true /\
  contains "'"
    "cd links && ln -s /srv/image-cache/articles/1/fig(1).jpg 0" = false /\
  contains "034"
    "cd links && ln -s /srv/image-cache/articles/1/fig(1).jpg 0" = false /\
  contains "\"
    "cd links && ln -s /srv/image-cache/articles/1/fig(1).jpg 0" = false.
Proof.
  repeat split.
Qed.

(** ** report-parser.py *)

(** The literal is 9/10 rounded to binary64. *)
Lemma threshold_is_nine_tenths :
  SFdiv prec emax (binary_normalize prec emax 9 0 false)
                  (binary_normalize prec emax 10 0 false) = threshold.
Proof. vm_compute. reflexivity. Qed.

Lemma threshold_not_above_itself :
  SFltb threshold threshold = false /\ SFleb threshold threshold = true.
Proof. split; reflexivity. Qed.

Section ReportFacts.
Variable float_of_str : string -> result spec_float.
Variable py_str : json -> string.
Variable json_loads : string -> result json.

(** The condition of the [if] on a message that is an object. *)
Lemma pae_reaches_threshold_true (items : list (string * json)) :
  pae_reaches_threshold float_of_str (JObj items) = Ok true <->
  exists pae f,
    dict_get "pae" items = Some pae /\ truthy pae = true /\
    py_float float_of_str pae = Ok f /\ SFleb threshold f = true.
Proof.
  unfold pae_reaches_threshold. cbn [py_in getitem bind].
  destruct (dict_get "pae" items) as [pae|]; cbn [bind].
  - destruct (truthy pae) eqn:Ht.
    + destruct (py_float float_of_str pae) as [f|e] eqn:Hf; cbn [bind].
      * split.
        -- intros [= H]. exists pae, f. auto.
        -- intros (pae' & f' & [= <-] & _ & Hf' & H).
           rewrite Hf in Hf'. injection Hf' as <-. now rewrite H.
      * split; [discriminate|].
        intros (pae' & f' & [= <-] & _ & Hf' & _). congruence.
    + split; [discriminate|].
      intros (pae' & f' & [= <-] & Ht' & _). congruence.
  - split; [discriminate|].
    intros (pae' & f' & Hd & _). discriminate.
Qed.

(** What the whole loop writes when no line raises: the [str] of each
    printed identifier and a space, in the order of the lines. *)
Lemma report_output (lines : list string) (vals : list (option json)) :
  Forall2 (fun line r =>
             (json_line <- json_loads line ;;
              report_line float_of_str json_line) = Ok r) lines vals ->
  report float_of_str py_str json_loads lines =
  (flat_map (fun r => match r with
                      | Some id => [py_str id; " "]
                      | None => []
                      end) vals, Ok tt).
Proof.
  induction 1 as [|line r lines vals Hr _ IH]; [reflexivity|].
  cbn [report flat_map]. rewrite Hr. destruct r as [id|].
  - rewrite IH. reflexivity.
  - exact IH.
Qed.
End ReportFacts.

(** C8, as stated, fails: a line whose [pae] is 0.9, the threshold itself,
    is printed, though 0.9 does not exceed 0.9. *)
Lemma pae_equal_to_threshold_is_printed :
  let items := [("pae", JFloat threshold); ("article-id", JStr "12345")] in
  let json_line := JObj [("message", JObj items)] in
  dict_get "pae" items = Some (JFloat threshold) /\
  truthy (JFloat threshold) = true /\
  report_line (fun _ => Raise ValueError) json_line = Ok (Some (JStr "12345")) /\
  SFltb threshold threshold = false /\
  ~ (report_line (fun _ => Raise ValueError) json_line = Ok (Some (JStr "12345")) <->
     exists pae f,
       dict_get "pae" items = Some pae /\ truthy pae = true /\
       py_float (fun _ => Raise ValueError) pae = Ok f /\
       SFltb threshold f = true).
Proof.
  cbv zeta. repeat split.
  intros [H _]. destruct (H eq_refl) as (pae & f & [= <-] & _ & [= <-] & Hlt).
  discriminate Hlt.
Qed.

(** C8, amended. For a line whose message is an object, the parser prints
    the line's article identifier if and only if the message has the field
    "pae", the field is truthy, and its value as a float is at least the
    threshold 0.9 (greater than or equal to it). *)
Theorem report_line_prints_iff
  (float_of_str : string -> result spec_float)
  (json_line : json) (items : list (string * json)) (id : json) :
  getitem json_line "message" = Ok (JObj items) ->
  dict_get "article-id" items = Some id ->
  (report_line float_of_str json_line = Ok (Some id) <->
   exists pae f,
     dict_get "pae" items = Some pae /\ truthy pae = true /\
     py_float float_of_str pae = Ok f /\ SFleb threshold f = true).
Proof.
  intros Hm Hid. rewrite <- pae_reaches_threshold_true.
  unfold report_line. rewrite Hm. cbn [bind].
  destruct (pae_reaches_threshold float_of_str (JObj items)) as [[|]|e];
    cbn [bind getitem].
  - rewrite Hid. split; reflexivity.
  - split; discriminate.
  - split; discriminate.
Qed.

Lemma report_line_prints_iff_witness :
  report_line (fun _ => Raise ValueError)
    (JObj [("message", JObj [("pae", JFloat threshold); ("article-id", JInt 7)])])
  = Ok (Some (JInt 7)).
Proof.
  apply (report_line_prints_iff (fun _ => Raise ValueError)
           (JObj [("message", JObj [("pae", JFloat threshold); ("article-id", JInt 7)])])
           [("pae", JFloat threshold); ("article-id", JInt 7)] (JInt 7));
    [reflexivity | reflexivity |].
  exists (JFloat threshold), threshold. repeat split.
Defined.

(** ** The scan of eom-viewer.py: [results.split()] *)

Example split_whitespace_ex1 :
  split_whitespace (String "010" " a/b  c" ++ String "009" (String "010" "")) =
  ["a/b"; "c"].
Proof. reflexivity. Qed.

Lemma has_space_app (a b : string) :
  has_space (a ++ b) = has_space a || has_space b.
Proof.
  induction a as [|x a IH]; simpl; [reflexivity|].
  now rewrite IH, orb_assoc.
Qed.

Lemma split_whitespace_head (x : ascii) (r : string) :
  is_space x = false -> split_whitespace (String x r) <> [].
Proof.
  intros Hx. cbn [split_whitespace]. rewrite Hx.
  destruct r as [|y r]; [discriminate|].
  destruct (is_space y); [discriminate|].
  destruct (split_whitespace (String y r)); discriminate.
Qed.

(** A whitespace character ends a field and starts none. *)
Lemma split_whitespace_app (c : ascii) (a b : string) :
  is_space c = true ->
  split_whitespace (a ++ String c b) =
  (split_whitespace a ++ split_whitespace b)%list.
Proof.
  intros Hc. induction a as [|x a IH].
  - cbn [append split_whitespace]. now rewrite Hc.
  - cbn [append]. cbn [split_whitespace].
    destruct (is_space x) eqn:Hx; [exact IH|].
    destruct a as [|y a].
    + cbn [append]. rewrite Hc. cbn [split_whitespace]. now rewrite Hc.
    + cbn [append] in *. destruct (is_space y) eqn:Hy.
      * rewrite IH. reflexivity.
      * rewrite IH.
        pose proof (split_whitespace_head y a Hy) as Hn.
        destruct (split_whitespace (String y a)); [congruence | reflexivity].
Qed.

Lemma split_whitespace_plain (w : string) :
  plain w -> split_whitespace w = [w].
Proof.
  intros [Hne Hs]. induction w as [|x w IH]; [congruence|].
  cbn [has_space] in Hs. apply orb_false_iff in Hs. destruct Hs as [Hx Hw].
  cbn [split_whitespace]. rewrite Hx.
  destruct w as [|y w]; [reflexivity|].
  cbn [has_space] in Hw. pose proof Hw as Hw'.
  apply orb_false_iff in Hw'. destruct Hw' as [Hy _]. rewrite Hy.
  rewrite IH; [reflexivity | discriminate | exact Hw].
Qed.

Lemma split_whitespace_fields (s : string) :
  Forall plain (split_whitespace s).
Proof.
  induction s as [|x s IH]; [constructor|].
  cbn [split_whitespace]. destruct (is_space x) eqn:Hx; [exact IH|].
  assert (H1 : plain (String x EmptyString)).
  { split; [discriminate | simpl; now rewrite Hx]. }
  destruct s as [|y s]; [now constructor|].
  destruct (is_space y); [now constructor|].
  destruct (split_whitespace (String y s)) as [|w ws]; [now constructor|].
  inversion IH as [|? ? [Hw1 Hw2] Hws]; subst. constructor; [|exact Hws].
  split; [discriminate | simpl; now rewrite Hx, Hw2].
Qed.

Lemma unlines_app (l1 l2 : list string) :
  unlines (l1 ++ l2) = unlines l1 ++ unlines l2.
Proof.
  induction l1 as [|p ps IH]; [reflexivity|].
  cbn [unlines List.app]. rewrite IH, append_assoc. reflexivity.
Qed.

Lemma is_space_newline : is_space "010" = true.
Proof. reflexivity. Qed.

Lemma split_whitespace_unlines (paths : list string) :
  split_whitespace (unlines paths) =
  flat_map split_whitespace paths.
Proof.
  induction paths as [|p ps IH]; [reflexivity|].
  cbn [unlines flat_map].
  now rewrite (split_whitespace_app "010" p _ is_space_newline), IH.
Qed.

(** X1. Every row of the scan is non-empty and free of whitespace, whatever
    [find] wrote. *)
Theorem scan_rows_plain (out : string) :
  Forall (fun row => row <> "" /\ has_space row = false /\
                     split_whitespace row = [row])
         (split_whitespace out).
Proof.
  pose proof (split_whitespace_fields out) as H.
  induction H as [|w ws Hw _ IH]; constructor; [|exact IH].
  destruct Hw as [Hne Hs]. repeat split; try assumption.
  apply split_whitespace_plain. now split.
Qed.

Lemma scan_recovers_plain_paths_aux (paths : list string) :
  Forall plain paths ->
  split_whitespace (unlines paths) = paths.
Proof.
  intros H. rewrite split_whitespace_unlines.
  induction H as [|p ps Hp _ IH]; [reflexivity|].
  cbn [flat_map]. rewrite (split_whitespace_plain p Hp), IH. reflexivity.
Qed.

(** X2. When no path has whitespace in it (and none is empty), the scan
    gives back the paths [find] wrote, in the same order. *)
Theorem scan_recovers_plain_paths (paths : list string) :
  Forall plain paths ->
  split_whitespace (unlines paths) = paths.
Proof.
  exact (scan_recovers_plain_paths_aux paths).
Qed.

Lemma scan_recovers_plain_paths_witness :
  split_whitespace
    (unlines ["image-cache/foo:123/bar/baz"; "image-cache/articles/123/bar"]) =
  ["image-cache/foo:123/bar/baz"; "image-cache/articles/123/bar"].
Proof.
  apply scan_recovers_plain_paths.
  repeat constructor; discriminate.
Defined.

(** X3. A path with one whitespace character in it is scanned as two rows,
    its two halves, between the rows of its neighbours. *)
Theorem scan_cuts_path_at_whitespace
  (before after : list string) (a b : string) (c : ascii) :
  Forall plain before -> Forall plain after ->
  plain a -> plain b -> is_space c = true ->
  split_whitespace (unlines (before ++ [a ++ String c b] ++ after)) =
  (before ++ [a; b] ++ after)%list.
Proof.
  intros Hb Ha Hpa Hpb Hc.
  rewrite split_whitespace_unlines, !flat_map_app. cbn [flat_map].
  rewrite (split_whitespace_app c a b Hc).
  rewrite (split_whitespace_plain a Hpa), (split_whitespace_plain b Hpb).
  rewrite <- !split_whitespace_unlines.
  rewrite (scan_recovers_plain_paths_aux before Hb).
  rewrite (scan_recovers_plain_paths_aux after Ha).
  reflexivity.
Qed.

Lemma scan_cuts_path_at_whitespace_witness :
  split_whitespace (unlines (["d/x"] ++ ["d/my file"] ++ ["d/z"])) =
  ["d/x"; "d/my"; "file"; "d/z"].
Proof.
  apply (scan_cuts_path_at_whitespace ["d/x"] ["d/z"] "d/my" "file" " ");
    try reflexivity; repeat constructor; discriminate.
Defined.

(** ** The whole of eom-viewer.py *)

Section DecorateFacts.
Context {A K : Type}.
Variable key : A -> result K.

Lemma decorate_raises (l : list A) (e : exception) :
  decorate key l = Raise e -> exists x, In x l /\ key x = Raise e.
Proof.
  induction l as [|x xs IH]; simpl; [discriminate|].
  destruct (key x) as [k|e'] eqn:Hk; cbn [bind].
  - destruct (decorate key xs) as [ks|e'']; cbn [bind]; [discriminate|].
    intros [= <-]. destruct (IH eq_refl) as (y & Hy & Hr). eauto.
  - intros [= <-]. eauto.
Qed.

Lemma decorate_raises_some (l : list A) (x : A) (e : exception) :
  In x l -> key x = Raise e -> exists e', decorate key l = Raise e'.
Proof.
  induction l as [|y ys IH]; simpl; [contradiction|].
  intros [-> | Hin] Hr.
  - rewrite Hr. cbn [bind]. eauto.
  - destruct (key y) as [k|e']; cbn [bind]; [|eauto].
    destruct (IH Hin Hr) as [e' ->]. cbn [bind]. eauto.
Qed.
End DecorateFacts.

Lemma sorted_raises_iff (found : list string) (e : exception) :
  sorted sorter found = Raise e <->
  e = IndexError /\ exists v, In v found /\ sorter v = Raise IndexError.
Proof.
  unfold sorted, sorted_by. split.
  - destruct (decorate sorter found) as [ks|e'] eqn:Hd; cbn [bind];
      [discriminate|].
    intros [= <-]. destruct (decorate_raises sorter found e' Hd) as (v & Hin & Hr).
    pose proof Hr as Hr'. apply sorter_raises_iff in Hr'. destruct Hr' as [-> _].
    eauto.
  - intros (-> & v & Hin & Hr).
    destruct (decorate_raises_some sorter found v IndexError Hin Hr) as [e' Hd].
    rewrite Hd. cbn [bind].
    destruct (decorate_raises sorter found e' Hd) as (w & _ & Hw).
    apply sorter_raises_iff in Hw. destruct Hw as [-> _]. reflexivity.
Qed.

Lemma map_snd_enumerate {A : Type} (l : list A) : map snd (enumerate l) = l.
Proof.
  unfold enumerate. generalize 0. induction l as [|x xs IH]; intros n;
    [reflexivity|].
  simpl. now rewrite IH.
Qed.

Section LoopFacts.
Variable abspath : string -> string.

Lemma printed_lines_link_loop (results : list string) :
  printed_lines (link_loop abspath results) = results.
Proof.
  rewrite <- (map_snd_enumerate results) at 2. unfold link_loop.
  induction (enumerate results) as [|[i row] rest IH]; [reflexivity|].
  simpl. now rewrite IH.
Qed.

Lemma main_Ok (found : list string) (t : list event) :
  main abspath found = Ok t ->
  exists results,
    sorted sorter found = Ok results /\
    t = System "mkdir -p links && cd links && rm *" :: link_loop abspath results.
Proof.
  unfold main. destruct (sorted sorter found) as [results|e]; cbn [bind];
    [|discriminate].
  intros [= <-]. eauto.
Qed.
End LoopFacts.

(** From the decoded rows on, the only failure is a row without a key. *)
Lemma main_raises_iff
  (abspath : string -> string) (found : list string) (e : exception) :
  main abspath found = Raise e <->
  e = IndexError /\ exists v, In v found /\ sorter v = Raise IndexError.
Proof.
  rewrite <- sorted_raises_iff. unfold main.
  destruct (sorted sorter found) as [results|e']; cbn [bind];
    split; congruence.
Qed.

(** X4. The script ends with an exception, from line 15 on and with [print]
    and [os.system] taken not to raise, in exactly three ways: the call of
    [find] raised, a word of its output does not decode, or every word
    decodes and some row has no sort key, which gives [IndexError].  In
    each of them the trace is empty: nothing has been cleared, printed or
    linked. *)
Theorem script_failure_leaves_no_effect
  (abspath : string -> string) (decode : string -> result string)
  (check_output : result string) (t : list event) (e : exception) :
  script abspath decode check_output = (t, Raise e) <->
  t = [] /\
  (check_output = Raise e \/
   exists out,
     check_output = Ok out /\
     (map_result decode (split_whitespace out) = Raise e \/
      exists found,
        map_result decode (split_whitespace out) = Ok found /\
        e = IndexError /\
        exists v, In v found /\ sorter v = Raise IndexError)).
Proof.
  unfold script. destruct check_output as [out|e0]; cbn [bind].
  - destruct (map_result decode (split_whitespace out)) as [found|e1] eqn:Hm;
      cbn [bind].
    + destruct (sorted sorter found) as [results|e2] eqn:Hs.
      * split; [discriminate|].
        intros (_ & [H | (out' & Ho & [H | (found' & H & He & Hv)])]);
          [discriminate | | ]; injection Ho as <-; rewrite Hm in H;
          [discriminate|].
        injection H as <-.
        assert (Hr : sorted sorter found = Raise IndexError)
          by (apply sorted_raises_iff; auto).
        congruence.
      * split.
        -- intros [= <- <-]. split; [reflexivity|]. right. exists out.
           split; [reflexivity|]. right. exists found.
           apply sorted_raises_iff in Hs. destruct Hs as [-> Hv]. auto.
        -- intros (-> & [H | (out' & Ho & [H | (found' & H & He & Hv)])]);
             [discriminate | | ]; injection Ho as <-; rewrite Hm in H;
             [discriminate|].
           injection H as <-. subst e. f_equal. f_equal.
           assert (Hr : sorted sorter found = Raise IndexError)
             by (apply sorted_raises_iff; auto).
           congruence.
    + split.
      * intros [= <- <-]. split; [reflexivity|]. right. exists out. auto.
      * intros (-> & [H | (out' & Ho & [H | (found' & H & _)])]);
          [discriminate | | ]; injection Ho as <-; rewrite Hm in H;
          [congruence | discriminate].
  - split.
    + intros [= <- <-]. auto.
    + intros (-> & [H | (out' & H & _)]); [congruence | discriminate].
Qed.

(** X5. When the script succeeds, its trace is the command that clears the
    directory and then, for each row of a rearrangement of the scanned
    rows, one [print] of the row and one [os.system] command: for the row
    of index [i] the command text is "cd links && ln -s", the absolute
    path of the row and the decimal numeral of [i].  Each scanned row is
    there once and the trace holds nothing else. *)
Theorem main_links_every_row_once
  (abspath : string -> string) (found : list string) (t : list event) :
  main abspath found = Ok t ->
  exists results,
    Permutation found results /\
    List.length t = S (2 * List.length results) /\
    nth_error t 0 = Some (System "mkdir -p links && cd links && rm *") /\
    forall i row,
      nth_error results i = Some row ->
      exists name,
        decimal_of name i /\
        nth_error t (1 + 2 * i) = Some (Print row) /\
        nth_error t (2 + 2 * i) =
        Some (System ("cd links && ln -s " ++ abspath row ++ " " ++ name)).
Proof.
  intros H. destruct (main_Ok abspath found t H) as (results & Hs & ->).
  exists results. split; [exact (sorted_perm sorter found results Hs)|].
  split; [cbn [List.length]; now rewrite length_link_loop|].
  split; [reflexivity|].
  intros i row Hi. exists (str_of_nat i). split; [apply str_of_nat_decimal|].
  destruct (nth_error_link_steps abspath (enumerate results) i (i, row)
              (nth_error_enumerate results i row Hi)) as [H1 H2].
  split; [exact H1 | exact H2].
Qed.

Lemma main_links_every_row_once_witness :
  exists results,
    Permutation ["image-cache/b:2/x"; "image-cache/articles/1/y"] results /\
    List.length
          [System "mkdir -p links && cd links && rm *";
           Print "image-cache/articles/1/y";
           System "cd links && ln -s /srv/image-cache/articles/1/y 0";
           Print "image-cache/b:2/x";
           System "cd links && ln -s /srv/image-cache/b:2/x 1"] = S (2 * List.length results) /\
    nth_error
          [System "mkdir -p links && cd links && rm *";
           Print "image-cache/articles/1/y";
           System "cd links && ln -s /srv/image-cache/articles/1/y 0";
           Print "image-cache/b:2/x";
           System "cd links && ln -s /srv/image-cache/b:2/x 1"] 0 =
      Some (System "mkdir -p links && cd links && rm *") /\
    forall i row,
      nth_error results i = Some row ->
      exists name,
        decimal_of name i /\
        nth_error
          [System "mkdir -p links && cd links && rm *";
           Print "image-cache/articles/1/y";
           System "cd links && ln -s /srv/image-cache/articles/1/y 0";
           Print "image-cache/b:2/x";
           System "cd links && ln -s /srv/image-cache/b:2/x 1"] (1 + 2 * i) =
          Some (Print row) /\
        nth_error
          [System "mkdir -p links && cd links && rm *";
           Print "image-cache/articles/1/y";
           System "cd links && ln -s /srv/image-cache/articles/1/y 0";
           Print "image-cache/b:2/x";
           System "cd links && ln -s /srv/image-cache/b:2/x 1"] (2 + 2 * i) =
          Some (System ("cd links && ln -s " ++ ("/srv/" ++ row) ++ " " ++ name)).
Proof.
  apply (main_links_every_row_once (fun row => "/srv/" ++ row)
           ["image-cache/b:2/x"; "image-cache/articles/1/y"]
          [System "mkdir -p links && cd links && rm *";
           Print "image-cache/articles/1/y";
           System "cd links && ln -s /srv/image-cache/articles/1/y 0";
           Print "image-cache/b:2/x";
           System "cd links && ln -s /srv/image-cache/b:2/x 1"]).
  reflexivity.
Defined.

(** *** The order of strings is transitive *)

Lemma ascii_compare_refl (a : ascii) : Ascii.compare a a = Eq.
Proof. unfold Ascii.compare. apply N.compare_refl. Qed.

Lemma ascii_compare_lt_trans (a b c : ascii) :
  Ascii.compare a b = Lt -> Ascii.compare b c = Lt -> Ascii.compare a c = Lt.
Proof.
  unfold Ascii.compare. rewrite !N.compare_lt_iff. apply N.lt_trans.
Qed.

Lemma string_compare_refl (s : string) : String.compare s s = Eq.
Proof.
  induction s as [|a s IH]; [reflexivity|].
  simpl. now rewrite ascii_compare_refl.
Qed.

Lemma string_compare_lt_trans (s t u : string) :
  String.compare s t = Lt -> String.compare t u = Lt -> String.compare s u = Lt.
Proof.
  revert t u. induction s as [|a s IH]; intros [|b t] [|c u]; simpl;
    try congruence.
  destruct (Ascii.compare a b) eqn:Hab; try discriminate;
    destruct (Ascii.compare b c) eqn:Hbc; try discriminate; intros H1 H2.
  - apply Ascii.compare_eq_iff in Hab, Hbc. subst.
    rewrite ascii_compare_refl. eauto.
  - apply Ascii.compare_eq_iff in Hab. subst. now rewrite Hbc.
  - apply Ascii.compare_eq_iff in Hbc. subst. now rewrite Hab.
  - now rewrite (ascii_compare_lt_trans a b c Hab Hbc).
Qed.

Lemma leb_spec (s t : string) :
  String.leb s t = true <-> String.compare s t = Lt \/ s = t.
Proof.
  unfold String.leb. destruct (String.compare s t) eqn:H.
  - apply String.compare_eq_iff in H. tauto.
  - tauto.
  - split; [discriminate|]. intros [H1 | ->]; [discriminate|].
    now rewrite string_compare_refl in H.
Qed.

Lemma leb_trans (s t u : string) :
  String.leb s t = true -> String.leb t u = true -> String.leb s u = true.
Proof.
  rewrite !leb_spec. intros [H1 | ->] [H2 | ->]; auto.
  left. eapply string_compare_lt_trans; eassumption.
Qed.

(** A string is below each of its proper extensions. *)
Lemma ltb_extension (k : string) (c : ascii) (s : string) :
  String.ltb k (k ++ String c s) = true.
Proof.
  unfold String.ltb.
  assert (H : String.compare k (k ++ String c s) = Lt); [|now rewrite H].
  induction k as [|a k IH]; [reflexivity|].
  simpl. now rewrite ascii_compare_refl.
Qed.

Lemma prefix_app (p k x : string) :
  String.prefix p k = true -> String.prefix p (k ++ x) = true.
Proof.
  revert k. induction p as [|a p IH]; intros k.
  - intros _. now destruct (k ++ x).
  - destruct k as [|b k]; simpl; [discriminate|].
    destruct (ascii_dec a b); [apply IH | discriminate].
Qed.

Section KeyOrder.
Context {A : Type}.
Variable key : A -> result string.

Lemma key_le_trans (x y z : A) :
  key_le key x y -> key_le key y z -> key_le key x z.
Proof.
  intros (kx & ky & Hx & Hy & Hxy) (ky' & kz & Hy' & Hz & Hyz).
  rewrite Hy in Hy'. injection Hy' as <-.
  exists kx, kz. repeat split; try assumption.
  eapply leb_trans; eassumption.
Qed.

Lemma sorted_strongly (l l' : list A) :
  sorted key l = Ok l' -> StronglySorted (key_le key) l'.
Proof.
  intros H. apply Sorted_StronglySorted.
  - intros x y z. apply key_le_trans.
  - now apply (sorted_ascending key l).
Qed.

Lemma StronglySorted_nth (R : A -> A -> Prop) (l : list A) :
  StronglySorted R l ->
  forall i j x y, i < j -> nth_error l i = Some x -> nth_error l j = Some y ->
  R x y.
Proof.
  induction 1 as [|a l Hs IH Hf]; intros i j x y Hij Hi Hj.
  - destruct i; discriminate.
  - destruct j as [|j]; [lia|]. simpl in Hj. destruct i as [|i].
    + injection Hi as <-. rewrite Forall_forall in Hf.
      apply Hf. eapply nth_error_In; eassumption.
    + simpl in Hi. apply (IH i j); [lia | assumption | assumption].
Qed.
End KeyOrder.

(** X6. The links ascend by sort key: of two rows of the output, the one
    linked under the smaller number has the key that is not greater. *)
Theorem main_links_ascend
  (abspath : string -> string) (found : list string) (t : list event)
  (i j : nat) (ri rj : string) :
  main abspath found = Ok t ->
  i < j ->
  nth_error (printed_lines t) i = Some ri ->
  nth_error (printed_lines t) j = Some rj ->
  exists ki kj,
    sorter ri = Ok ki /\ sorter rj = Ok kj /\ String.leb ki kj = true.
Proof.
  intros H Hij Hi Hj. destruct (main_Ok abspath found t H) as (results & Hs & ->).
  cbn [printed_lines flat_map List.app] in Hi, Hj.
  change (flat_map _ (link_loop abspath results))
    with (printed_lines (link_loop abspath results)) in Hi, Hj.
  rewrite printed_lines_link_loop in Hi, Hj.
  exact (StronglySorted_nth (key_le sorter) results
           (sorted_strongly sorter found results Hs) i j ri rj Hij Hi Hj).
Qed.

Lemma main_links_ascend_witness :
  exists ki kj,
    sorter "image-cache/articles/1/y" = Ok ki /\
    sorter "image-cache/b:2/x" = Ok kj /\ String.leb ki kj = true.
Proof.
  apply (main_links_ascend (fun row => "/srv/" ++ row)
           ["image-cache/b:2/x"; "image-cache/articles/1/y"]
           [System "mkdir -p links && cd links && rm *";
            Print "image-cache/articles/1/y";
            System "cd links && ln -s /srv/image-cache/articles/1/y 0";
            Print "image-cache/b:2/x";
            System "cd links && ln -s /srv/image-cache/b:2/x 1"] 0 1);
    [reflexivity | lia | reflexivity | reflexivity].
Defined.

(** X7. A file comes before every file whose path extends its sort key (so
    a file remapped to "image-cache/articles/ID/sub" comes before the files
    under that directory): whatever their order in the scan, the sort puts
    it first. *)
Theorem file_sorts_before_extensions_of_its_key
  (v k : string) (c : ascii) (s : string) :
  sorter v = Ok k ->
  sorter (k ++ String c s) = Ok (k ++ String c s) /\
  sorted sorter [k ++ String c s; v] = Ok [v; k ++ String c s] /\
  sorted sorter [v; k ++ String c s] = Ok [v; k ++ String c s].
Proof.
  intros Hk.
  assert (Hw : sorter (k ++ String c s) = Ok (k ++ String c s)).
  { apply sorter_first_branch. unfold startswith.
    apply prefix_app. exact (sorter_key_prefix v k Hk). }
  pose proof (ltb_extension k c s) as Hlt.
  split; [exact Hw|]. unfold sorted, sorted_by. cbn [decorate].
  rewrite Hw, Hk. cbn [bind sort_decorated insert fst snd map].
  rewrite Hlt, (ltb_asym _ _ Hlt). split; reflexivity.
Qed.

Lemma file_sorts_before_extensions_of_its_key_witness :
  sorter ("image-cache/articles/123/bar" ++ String "/" "a.jpg") =
    Ok ("image-cache/articles/123/bar" ++ String "/" "a.jpg") /\
  sorted sorter ["image-cache/articles/123/bar" ++ String "/" "a.jpg";
                 "image-cache/foo:123/bar/baz"] =
    Ok ["image-cache/foo:123/bar/baz";
        "image-cache/articles/123/bar" ++ String "/" "a.jpg"] /\
  sorted sorter ["image-cache/foo:123/bar/baz";
                 "image-cache/articles/123/bar" ++ String "/" "a.jpg"] =
    Ok ["image-cache/foo:123/bar/baz";
        "image-cache/articles/123/bar" ++ String "/" "a.jpg"].
Proof.
  apply (file_sorts_before_extensions_of_its_key
           "image-cache/foo:123/bar/baz" "image-cache/articles/123/bar" "/" "a.jpg");
    reflexivity.
Defined.

(** *** The shape of a remapped key *)

Lemma contains_before_first (c d : ascii) (s : string) :
  contains d s = false -> contains d (before_first c s) = false.
Proof.
  induction s as [|x s IH]; simpl; [reflexivity|].
  destruct (Ascii.eqb x d) eqn:Hd; [discriminate|].
  destruct (Ascii.eqb x c); simpl; [reflexivity|].
  now rewrite Hd.
Qed.

Lemma contains_after_first (c d : ascii) (s : string) :
  contains d s = false -> contains d (after_first c s) = false.
Proof.
  induction s as [|x s IH]; simpl; [reflexivity|].
  destruct (Ascii.eqb x d) eqn:Hd; [discriminate|].
  destruct (Ascii.eqb x c); auto.
Qed.

Lemma before_first_clean (c : ascii) (s : string) :
  contains c (before_first c s) = false.
Proof.
  induction s as [|x s IH]; simpl; [reflexivity|].
  destruct (Ascii.eqb x c) eqn:Hx; simpl; [reflexivity|].
  now rewrite Hx.
Qed.

(** No field of a split holds the separator. *)
Lemma split_fields_clean (c : ascii) (s : string) :
  Forall (fun w => contains c w = false) (split c s).
Proof.
  induction s as [|x s IH]; simpl; [now repeat constructor|].
  destruct (Ascii.eqb x c) eqn:Hx; [now constructor|].
  destruct (split c s) as [|w ws]; [repeat constructor; simpl; now rewrite Hx|].
  inversion IH as [|? ? Hw Hws]; subst. constructor; [|exact Hws].
  simpl. now rewrite Hx.
Qed.

Lemma nth_error_Forall {A : Type} (P : A -> Prop) (l : list A) (i : nat) (a : A) :
  Forall P l -> nth_error l i = Some a -> P a.
Proof.
  intros Hf Hi. rewrite Forall_forall in Hf. apply Hf.
  eapply nth_error_In; eassumption.
Qed.

Lemma join_slice_clean (l : list string) :
  Forall (fun w => contains "/" w = false) l ->
  contains "/" (join "/" (slice l 2 3)) = false.
Proof.
  intros Hf. destruct l as [|a [|b [|c l]]]; try reflexivity.
  unfold slice, join. simpl.
  inversion Hf as [|? ? _ Hf1]; subst. inversion Hf1 as [|? ? _ Hf2]; subst.
  inversion Hf2 as [|? ? Hc _]; subst. exact Hc.
Qed.

(** X8. A key made by the second branch has exactly four segments,
    "image-cache", "articles", the identifier and the third segment of the
    path (an empty one when the path has only two), and the identifier
    holds no colon: whatever else the path had (its root, its collection,
    later colons, deeper segments) is not in the key. *)
Theorem remapped_key_has_four_segments (v k : string) :
  startswith v articles_prefix = false ->
  sorter v = Ok k ->
  exists msid y,
    split "/" k = ["image-cache"; "articles"; msid; y] /\
    contains ":" msid = false /\
    (index (split "/" v) 2 = Ok y \/
     index (split "/" v) 2 = Raise IndexError /\ y = "").
Proof.
  intros Hp Hk.
  destruct (nth_error (split "/" v) 1) as [seg|] eqn:Hseg.
  2:{ exfalso. unfold sorter in Hk. rewrite Hp in Hk. unfold index in Hk at 1.
      rewrite Hseg in Hk. discriminate. }
  destruct (contains ":" seg) eqn:Hc.
  2:{ exfalso. assert (Hr : sorter v = Raise IndexError); [|congruence].
      apply sorter_raises_iff. repeat split; [exact Hp|]. right. eauto. }
  rewrite (sorter_other_branch v seg Hp Hseg Hc) in Hk. injection Hk as <-.
  pose proof (split_fields_clean "/" v) as Hclean.
  pose proof (nth_error_Forall _ _ _ _ Hclean Hseg) as Hsegc. cbv beta in Hsegc.
  set (msid := before_first ":" (after_first ":" seg)).
  set (y := join "/" (slice (split "/" v) 2 3)).
  assert (Hm1 : contains ":" msid = false) by apply before_first_clean.
  assert (Hm2 : contains "/" msid = false)
    by (apply contains_before_first, contains_after_first, Hsegc).
  assert (Hy : contains "/" y = false) by (apply join_slice_clean, Hclean).
  exists msid, y. split; [|split; [exact Hm1|]].
  - unfold format_key.
    change ("image-cache/articles/" ++ msid ++ "/" ++ y)
      with ("image-cache" ++ String "/" ("articles" ++ String "/" (msid ++ String "/" y))).
    rewrite !split_app by (reflexivity || exact Hm2).
    now rewrite split_absent.
  - subst y. unfold index, slice, join.
    destruct (split "/" v) as [|a [|b [|c l]]]; simpl; auto.
Qed.

Lemma remapped_key_has_four_segments_witness :
  exists msid y,
    split "/" "image-cache/articles/1/s" = ["image-cache"; "articles"; msid; y] /\
    contains ":" msid = false /\
    (index (split "/" "r/c:1:2/s/t/u") 2 = Ok y \/
     index (split "/" "r/c:1:2/s/t/u") 2 = Raise IndexError /\ y = "").
Proof.
  apply (remapped_key_has_four_segments "r/c:1:2/s/t/u" "image-cache/articles/1/s");
    reflexivity.
Defined.

(** *** The name of a link *)

Lemma string_of_uint_no_space (d : Decimal.uint) :
  contains " " (NilEmpty.string_of_uint d) = false.
Proof. induction d; simpl; assumption || reflexivity. Qed.

(** The text after the last space of a command is its last word. *)
Lemma last_word_unique (a a' n n' : string) :
  contains " " n = false -> contains " " n' = false ->
  a ++ String " " n = a' ++ String " " n' -> n = n'.
Proof.
  intros Hn Hn'. revert a'. induction a as [|x a IH]; intros [|x' a'];
    cbn [append]; intros H.
  - now injection H.
  - injection H as Hx H. subst. rewrite contains_app in Hn. simpl in Hn.
    now rewrite orb_true_r in Hn.
  - injection H as Hx H. subst. rewrite contains_app in Hn'. simpl in Hn'.
    now rewrite orb_true_r in Hn'.
  - injection H as Hx H. exact (IH a' H).
Qed.

(** X9. The number at the end of a link command tells its index: two
    commands of the loop are the same only at the same index, whatever the
    paths are, so no link name is used twice. *)
Theorem ln_command_determines_index
  (abspath : string -> string) (row row' : string) (i j : nat) :
  ln_command abspath row i = ln_command abspath row' j -> i = j.
Proof.
  unfold ln_command. intros H. apply str_of_nat_inj.
  change ("cd links && ln -s " ++ abspath row ++ " " ++ str_of_nat i)
    with ("cd links && ln -s " ++ abspath row ++ String " " (str_of_nat i)) in H.
  change ("cd links && ln -s " ++ abspath row' ++ " " ++ str_of_nat j)
    with ("cd links && ln -s " ++ abspath row' ++ String " " (str_of_nat j)) in H.
  rewrite <- !append_assoc in H.
  eapply last_word_unique; [| | exact H]; apply string_of_uint_no_space.
Qed.

Lemma ln_command_determines_index_witness : 3 = 3.
Proof.
  apply (ln_command_determines_index (fun row => "/srv/" ++ row) "a b" "a b" 3 3).
  reflexivity.
Defined.

(** ** The lines of report-parser.py *)

Section LineFacts.
Variable float_of_str : string -> result spec_float.

Lemma report_line_message (json_line : json) (items : list (string * json)) :
  getitem json_line "message" = Ok (JObj items) ->
  report_line float_of_str json_line =
  (c <- pae_reaches_threshold float_of_str (JObj items) ;;
   if c then id <- getitem (JObj items) "article-id" ;; Ok (Some id)
   else Ok None).
Proof.
  intros Hm. unfold report_line. rewrite Hm. reflexivity.
Qed.

(** A float that reaches the threshold is not a zero. *)
Lemma threshold_leb_truthy (f : spec_float) :
  SFleb threshold f = true -> truthy (JFloat f) = true.
Proof.
  destruct f; try reflexivity. discriminate.
Qed.
End LineFacts.

(** X10. A line whose message has no "pae", or a falsy one (null, false,
    0, 0.0, an empty string, list or object), prints nothing and raises
    nothing: the value is never converted and "article-id" is never read,
    so neither needs to be well formed or present. *)
Theorem absent_or_falsy_pae_prints_nothing
  (float_of_str : string -> result spec_float)
  (json_line : json) (items : list (string * json)) :
  getitem json_line "message" = Ok (JObj items) ->
  (dict_get "pae" items = None \/
   exists pae, dict_get "pae" items = Some pae /\ truthy pae = false) ->
  report_line float_of_str json_line = Ok None.
Proof.
  intros Hm H. rewrite (report_line_message _ _ _ Hm).
  unfold pae_reaches_threshold. cbn [py_in getitem bind].
  destruct H as [Hd | (pae & Hd & Ht)]; rewrite Hd; cbn [bind].
  - reflexivity.
  - rewrite Ht. reflexivity.
Qed.

Lemma absent_or_falsy_pae_prints_nothing_witness :
  report_line (fun _ => Raise ValueError)
    (JObj [("message", JObj [("pae", JStr "")])]) = Ok None /\
  report_line (fun _ => Raise ValueError)
    (JObj [("message", JObj [("level", JStr "info")])]) = Ok None.
Proof.
  split.
  - apply (absent_or_falsy_pae_prints_nothing _ _ [("pae", JStr "")]);
      [reflexivity|].
    right. exists (JStr ""). split; reflexivity.
  - apply (absent_or_falsy_pae_prints_nothing _ _ [("level", JStr "info")]);
      [reflexivity|].
    left. reflexivity.
Defined.

(** X11. A line whose "pae" reaches the threshold but whose message has no
    "article-id" raises [KeyError]. *)
Theorem missing_article_id_raises_key_error
  (float_of_str : string -> result spec_float)
  (json_line : json) (items : list (string * json)) (pae : json)
  (f : spec_float) :
  getitem json_line "message" = Ok (JObj items) ->
  dict_get "pae" items = Some pae ->
  truthy pae = true ->
  py_float float_of_str pae = Ok f ->
  SFleb threshold f = true ->
  dict_get "article-id" items = None ->
  report_line float_of_str json_line = Raise KeyError.
Proof.
  intros Hm Hd Ht Hf Hle Hid. rewrite (report_line_message _ _ _ Hm).
  assert (Hc : pae_reaches_threshold float_of_str (JObj items) = Ok true)
    by (apply pae_reaches_threshold_true; eauto 6).
  rewrite Hc. cbn [bind getitem]. rewrite Hid. reflexivity.
Qed.

Lemma missing_article_id_raises_key_error_witness :
  report_line (fun _ => Raise ValueError)
    (JObj [("message", JObj [("pae", JFloat threshold)])]) = Raise KeyError.
Proof.
  apply (missing_article_id_raises_key_error _ _ [("pae", JFloat threshold)]
           (JFloat threshold) threshold); reflexivity.
Defined.

(** X12. When "pae" is a float, the truth test changes nothing: the
    identifier is printed if and only if the float is at least the
    threshold.  A NaN, a zero and a negative number are never printed;
    positive infinity is. *)
Theorem float_pae_printed_iff
  (float_of_str : string -> result spec_float)
  (json_line : json) (items : list (string * json)) (f : spec_float)
  (id : json) :
  getitem json_line "message" = Ok (JObj items) ->
  dict_get "pae" items = Some (JFloat f) ->
  dict_get "article-id" items = Some id ->
  (report_line float_of_str json_line = Ok (Some id) <->
   SFleb threshold f = true) /\
  (report_line float_of_str json_line = Ok None <->
   SFleb threshold f = false) /\
  SFleb threshold S754_nan = false /\
  SFleb threshold (S754_infinity false) = true /\
  (forall s, SFleb threshold (S754_zero s) = false) /\
  (forall m e, SFleb threshold (S754_finite true m e) = false).
Proof.
  intros Hm Hd Hid. rewrite (report_line_message _ _ _ Hm).
  unfold pae_reaches_threshold. cbn [py_in getitem bind]. rewrite Hd, Hid.
  cbn [bind py_float].
  repeat split; try reflexivity;
    destruct (SFleb threshold f) eqn:Hle;
    try (rewrite (threshold_leb_truthy f Hle));
    try (destruct (truthy (JFloat f)));
    cbn [bind]; try rewrite Hle; congruence.
Qed.

Lemma float_pae_printed_iff_witness :
  report_line (fun _ => Raise ValueError)
    (JObj [("message", JObj [("pae", JFloat S754_nan); ("article-id", JInt 7)])])
  = Ok None.
Proof.
  apply (float_pae_printed_iff (fun _ => Raise ValueError)
           (JObj [("message", JObj [("pae", JFloat S754_nan); ("article-id", JInt 7)])])
           [("pae", JFloat S754_nan); ("article-id", JInt 7)] S754_nan (JInt 7));
    reflexivity.
Defined.

(** X13. A line whose message is not an object never prints: a message
    that cannot hold "pae" passes silently, and every other one raises
    [TypeError] (a string with "pae" in it, a list with the element "pae",
    a number, a boolean or null). *)
Theorem non_object_message_never_prints
  (float_of_str : string -> result spec_float) (json_line m : json) :
  getitem json_line "message" = Ok m ->
  (forall items, m <> JObj items) ->
  match py_in "pae" m with
  | Ok false => report_line float_of_str json_line = Ok None
  | _ => report_line float_of_str json_line = Raise TypeError
  end.
Proof.
  intros Hm Hno. unfold report_line. rewrite Hm. cbn [bind].
  unfold pae_reaches_threshold.
  destruct m as [| b | z | f | s | l | items]; cbn [py_in bind];
    try reflexivity.
  - destruct (is_substring "pae" s); reflexivity.
  - destruct (existsb _ l); reflexivity.
  - exfalso. exact (Hno items eq_refl).
Qed.

Lemma non_object_message_never_prints_witness :
  report_line (fun _ => Raise ValueError)
    (JObj [("message", JStr "no pae given")]) = Raise TypeError /\
  report_line (fun _ => Raise ValueError)
    (JObj [("message", JStr "started")]) = Ok None.
Proof.
  split.
  - apply (non_object_message_never_prints (fun _ => Raise ValueError)
             (JObj [("message", JStr "no pae given")]) (JStr "no pae given"));
      [reflexivity | discriminate].
  - apply (non_object_message_never_prints (fun _ => Raise ValueError)
             (JObj [("message", JStr "started")]) (JStr "started"));
      [reflexivity | discriminate].
Defined.

(** X14. A truthy "pae" that [float] rejects aborts the line with the
    error of [float], with or without an "article-id": [TypeError] for a
    list or an object that is not empty. *)
Theorem rejected_pae_raises
  (float_of_str : string -> result spec_float)
  (json_line : json) (items : list (string * json)) (pae : json)
  (e : exception) :
  getitem json_line "message" = Ok (JObj items) ->
  dict_get "pae" items = Some pae ->
  truthy pae = true ->
  py_float float_of_str pae = Raise e ->
  report_line float_of_str json_line = Raise e /\
  (forall x l, pae = JList (x :: l) -> e = TypeError) /\
  (forall x l, pae = JObj (x :: l) -> e = TypeError).
Proof.
  intros Hm Hd Ht Hf. rewrite (report_line_message _ _ _ Hm).
  unfold pae_reaches_threshold. cbn [py_in getitem bind]. rewrite Hd.
  cbn [bind]. rewrite Ht, Hf. repeat split.
  - intros x l ->. simpl in Hf. congruence.
  - intros x l ->. simpl in Hf. congruence.
Qed.

Lemma rejected_pae_raises_witness :
  report_line (fun _ => Raise ValueError)
    (JObj [("message", JObj [("pae", JStr "n/a")])]) = Raise ValueError /\
  (forall x l, JStr "n/a" = JList (x :: l) -> ValueError = TypeError) /\
  (forall x l, JStr "n/a" = JObj (x :: l) -> ValueError = TypeError).
Proof.
  apply (rejected_pae_raises (fun _ => Raise ValueError)
           (JObj [("message", JObj [("pae", JStr "n/a")])])
           [("pae", JStr "n/a")] (JStr "n/a") ValueError); reflexivity.
Defined.

(** ** The loop of report-parser.py *)

Section LoopOfLines.
Variable float_of_str : string -> result spec_float.
Variable py_str : json -> string.
Variable json_loads : string -> result json.

(** What one line does: decoded, then tested. *)
Lemma report_cons_Ok (line : string) (rest : list string) (r : option json) :
  (json_line <- json_loads line ;; report_line float_of_str json_line) = Ok r ->
  report float_of_str py_str json_loads (line :: rest) =
  (match r with Some id => [py_str id; " "] | None => [] end
   ++ fst (report float_of_str py_str json_loads rest),
   snd (report float_of_str py_str json_loads rest))%list.
Proof.
  intros Hr. cbn [report]. rewrite Hr.
  destruct r as [id|]; destruct (report float_of_str py_str json_loads rest);
    reflexivity.
Qed.
End LoopOfLines.

(** X15. The first line that raises (one that is no JSON, or one of the
    errors of a line) ends the report with that error: what the lines
    before it printed has been written, and no later line is looked at. *)
Theorem report_stops_at_first_error
  (float_of_str : string -> result spec_float) (py_str : json -> string)
  (json_loads : string -> result json)
  (good : list string) (vals : list (option json))
  (bad : string) (later : list string) (e : exception) :
  Forall2 (fun line r =>
             (json_line <- json_loads line ;;
              report_line float_of_str json_line) = Ok r) good vals ->
  (json_line <- json_loads bad ;; report_line float_of_str json_line) = Raise e ->
  report float_of_str py_str json_loads (good ++ bad :: later) =
  (flat_map (fun r => match r with
                      | Some id => [py_str id; " "]
                      | None => []
                      end) vals, Raise e).
Proof.
  intros Hgood Hbad. induction Hgood as [|line r good vals Hr _ IH].
  - cbn [List.app report flat_map]. rewrite Hbad. reflexivity.
  - cbn [List.app flat_map].
    rewrite (report_cons_Ok float_of_str py_str json_loads line _ r Hr), IH.
    reflexivity.
Qed.

Lemma report_stops_at_first_error_witness :
  report (fun _ => Raise ValueError)
    (fun v => match v with JStr s => s | _ => "?" end)
    (fun line =>
       if String.eqb line "ok"
       then Ok (JObj [("message",
                       JObj [("pae", JFloat threshold); ("article-id", JStr "42")])])
       else Raise ValueError)
    (["ok"] ++ "" :: ["ok"]) =
  (["42"; " "], Raise ValueError).
Proof.
  apply (report_stops_at_first_error
           (fun _ => Raise ValueError)
           (fun v => match v with JStr s => s | _ => "?" end)
           (fun line =>
              if String.eqb line "ok"
              then Ok (JObj [("message",
                              JObj [("pae", JFloat threshold);
                                    ("article-id", JStr "42")])])
              else Raise ValueError)
           ["ok"] [Some (JStr "42")] "" ["ok"] ValueError).
  - repeat constructor.
  - reflexivity.
Defined.

(** X16. Once the file is read, the report ends without an error exactly
    when every line decodes and passes the test without raising; and when
    every line does, the report ends without an error and has written,
    line by line and in the order of the file, the [str] of each identifier
    that passed and a space after it. *)
Theorem report_ends_well_iff
  (float_of_str : string -> result spec_float) (py_str : json -> string)
  (json_loads : string -> result json) (lines : list string) :
  (snd (report float_of_str py_str json_loads lines) = Ok tt <->
   exists vals,
     Forall2 (fun line r =>
                (json_line <- json_loads line ;;
                 report_line float_of_str json_line) = Ok r) lines vals) /\
  (forall vals,
     Forall2 (fun line r =>
                (json_line <- json_loads line ;;
                 report_line float_of_str json_line) = Ok r) lines vals ->
     report float_of_str py_str json_loads lines =
     (flat_map (fun r => match r with
                         | Some id => [py_str id; " "]
                         | None => []
                         end) vals, Ok tt)).
Proof.
  split; [split|].
  - induction lines as [|line rest IH]; intros H.
    + exists []. constructor.
    + destruct (json_line <- json_loads line ;;
                report_line float_of_str json_line) as [r|e] eqn:Hr.
      * rewrite (report_cons_Ok float_of_str py_str json_loads line rest r Hr)
          in H.
        cbn [snd] in H. destruct (IH H) as (vals & Hf).
        exists (r :: vals). now constructor.
      * cbn [report] in H. rewrite Hr in H. discriminate H.
  - intros (vals & Hf).
    now rewrite (report_output float_of_str py_str json_loads lines vals Hf).
  - intros vals Hf.
    exact (report_output float_of_str py_str json_loads lines vals Hf).
Qed.

(** ** An integer "pae" *)

Lemma binary_round_aux_sign (sx : bool) (mx ex : Z) (lx : location) :
  match binary_round_aux prec emax sx mx ex lx with
  | S754_zero s | S754_infinity s | S754_finite s _ _ => s = sx
  | S754_nan => True
  end.
Proof.
  unfold binary_round_aux.
  destruct (shr_fexp prec emax mx ex lx) as [mrs' e'].
  destruct (shr_fexp prec emax _ e' loc_Exact) as [mrs'' e''].
  destruct (shr_m mrs''); [reflexivity | | exact I].
  destruct (Z.leb _ _); reflexivity.
Qed.

(** The float of a negative integer is below the threshold. *)
Lemma float_of_negative_int (p : positive) (f : spec_float) :
  float_of_int (Zneg p) = Ok f -> SFleb threshold f = false.
Proof.
  unfold float_of_int. cbn [binary_normalize]. unfold binary_round.
  destruct (shl_align p 0 _) as [mz ez].
  pose proof (binary_round_aux_sign true (Zpos mz) ez loc_Exact) as Hs.
  destruct (binary_round_aux prec emax true (Zpos mz) ez loc_Exact)
    as [s | s | | s m e]; try discriminate; intros [= <-]; subst;
    reflexivity.
Qed.

Lemma digits2_pos_size (m : positive) : digits2_pos m = Pos.size m.
Proof. induction m; simpl; congruence. Qed.

Lemma digits2_pos_iter (m d : positive) :
  digits2_pos (Pos.iter xO m d) = (digits2_pos m + d)%positive.
Proof.
  induction d as [|d IH] using Pos.peano_ind.
  - simpl. lia.
  - rewrite Pos.iter_succ. simpl. rewrite IH. lia.
Qed.

Lemma digits2_pos_small (m : positive) :
  (Zpos m < 2 ^ 53)%Z -> (Zpos (digits2_pos m) <= 53)%Z.
Proof.
  intros Hm. rewrite digits2_pos_size.
  destruct (Z.le_gt_cases (Zpos (Pos.size m)) 53) as [H | H]; [exact H|].
  exfalso. pose proof (Pos.size_le m) as Hs.
  apply Pos2Z.pos_le_pos in Hs. rewrite Pos2Z.inj_pow in Hs.
  assert (H54 : (2 ^ 54 <= 2 ^ Zpos (Pos.size m))%Z)
    by (apply Z.pow_le_mono_r; lia).
  change (Zpos m~0) with (2 * Zpos m)%Z in Hs.
  change (2 ^ 54)%Z with (2 * 2 ^ 53)%Z in H54. lia.
Qed.

(** An integer from 1 to 2^53 - 1 is a float as it is, with 53 digits. *)
Lemma float_of_small_int (m : positive) :
  (Zpos m < 2 ^ 53)%Z ->
  exists mz,
    float_of_int (Zpos m) =
    Ok (S754_finite false mz (Zpos (digits2_pos m) - 53)).
Proof.
  intros Hm. pose proof (digits2_pos_small m Hm) as Hd.
  unfold float_of_int. cbn [binary_normalize]. unfold binary_round.
  assert (Hfexp : forall d, (1 <= d <= 53)%Z -> fexp prec emax d = (d - 53)%Z).
  { intros d Hd'. unfold fexp, emin, prec, emax. lia. }
  rewrite Z.add_0_r, Hfexp by lia.
  unfold shl_align. rewrite Z.sub_0_r.
  destruct (Zpos (digits2_pos m) - 53)%Z as [|q|q] eqn:Hq; [| lia |].
  - exists m. unfold binary_round_aux, shr_fexp. cbn [Zdigits2].
    rewrite Z.add_0_r, Hfexp by lia. rewrite Hq. cbn [shr_record_of_loc shr Z.sub Z.add Z.opp].
    cbn [shr_m loc_of_shr_record round_nearest_even Zdigits2].
    rewrite Z.add_0_r, Hfexp by lia. rewrite Hq. reflexivity.
  - exists (Pos.iter xO m q).
    assert (Hdig : Zpos (digits2_pos (Pos.iter xO m q)) = 53%Z)
      by (rewrite digits2_pos_iter; lia).
    unfold binary_round_aux, shr_fexp. cbn [Zdigits2].
    rewrite Hdig.
    replace (53 + Z.neg q)%Z with (Zpos (digits2_pos m)) by lia.
    rewrite Hfexp by lia. rewrite Hq, Z.sub_diag.
    cbn [shr_record_of_loc shr].
    cbn [shr_m loc_of_shr_record round_nearest_even Zdigits2].
    rewrite Hdig.
    replace (53 + Z.neg q)%Z with (Zpos (digits2_pos m)) by lia.
    rewrite Hfexp by lia. rewrite Hq, Z.sub_diag. cbn [shr shr_m].
    reflexivity.
Qed.

(** X17. An integer "pae" that is zero or negative is never printed: zero
    is falsy, and a negative integer is below the threshold as a float (or,
    beyond the range of the floats, raises [OverflowError]). *)
Theorem non_positive_int_pae_never_printed
  (float_of_str : string -> result spec_float)
  (json_line : json) (items : list (string * json)) (z : Z) :
  getitem json_line "message" = Ok (JObj items) ->
  dict_get "pae" items = Some (JInt z) ->
  (z <= 0)%Z ->
  report_line float_of_str json_line = Ok None \/
  (report_line float_of_str json_line = Raise OverflowError /\
   float_of_int z = Raise OverflowError).
Proof.
  intros Hm Hd Hz. rewrite (report_line_message _ _ _ Hm).
  unfold pae_reaches_threshold. cbn [py_in getitem bind]. rewrite Hd.
  cbn [bind]. destruct z as [|p|p]; [left; reflexivity | lia |].
  cbn [truthy Z.eqb negb py_float].
  destruct (float_of_int (Zneg p)) as [f|e] eqn:Hf; cbn [bind].
  - rewrite (float_of_negative_int p f Hf). left. reflexivity.
  - right. unfold float_of_int in Hf |- *.
    destruct (binary_normalize prec emax (Zneg p) 0 false);
      try discriminate; injection Hf as <-; split; reflexivity.
Qed.

Lemma non_positive_int_pae_never_printed_witness :
  report_line (fun _ => Raise ValueError)
    (JObj [("message", JObj [("pae", JInt (-3)); ("article-id", JInt 7)])])
  = Ok None \/
  (report_line (fun _ => Raise ValueError)
     (JObj [("message", JObj [("pae", JInt (-3)); ("article-id", JInt 7)])])
   = Raise OverflowError /\
   float_of_int (-3) = Raise OverflowError).
Proof.
  apply (non_positive_int_pae_never_printed (fun _ => Raise ValueError)
           (JObj [("message", JObj [("pae", JInt (-3)); ("article-id", JInt 7)])])
           [("pae", JInt (-3)); ("article-id", JInt 7)] (-3)%Z);
    [reflexivity | reflexivity | lia].
Defined.

(** X18. An integer "pae" from 1 up to 2^53 - 1, and the boolean [true]
    (which [float] reads as 1), reach the threshold: the identifier of the
    line is printed. *)
Theorem positive_int_pae_printed
  (float_of_str : string -> result spec_float)
  (json_line : json) (items : list (string * json)) (pae id : json) :
  getitem json_line "message" = Ok (JObj items) ->
  dict_get "pae" items = Some pae ->
  pae = JBool true \/ (exists z, pae = JInt z /\ (1 <= z < 2 ^ 53)%Z) ->
  dict_get "article-id" items = Some id ->
  report_line float_of_str json_line = Ok (Some id).
Proof.
  intros Hm Hd Hpae Hid. rewrite (report_line_message _ _ _ Hm).
  assert (Hc : pae_reaches_threshold float_of_str (JObj items) = Ok true).
  { apply pae_reaches_threshold_true.
    assert (Hz : exists z, (1 <= z < 2 ^ 53)%Z /\ truthy pae = true /\
                           py_float float_of_str pae = float_of_int z).
    { destruct Hpae as [-> | (z & -> & Hz)].
      - exists 1%Z. repeat split; lia.
      - exists z. repeat split; try lia.
        cbn [truthy]. destruct z; try lia; reflexivity. }
    destruct Hz as (z & Hz & Ht & Hf).
    destruct z as [|m|m]; try lia.
    destruct (float_of_small_int m) as [mz Hmz]; [lia|].
    exists pae. eexists. repeat split; try eassumption.
    - rewrite Hf. exact Hmz.
    - unfold SFleb, threshold. cbn [SFcompare].
      pose proof (Pos2Z.is_pos (digits2_pos m)) as Hpos.
      destruct (Z.compare_spec (-53) (Zpos (digits2_pos m) - 53)) as [H | H | H];
        [lia | reflexivity | lia]. }
  rewrite Hc. cbn [bind getitem]. rewrite Hid. reflexivity.
Qed.

Lemma positive_int_pae_printed_witness :
  report_line (fun _ => Raise ValueError)
    (JObj [("message", JObj [("pae", JInt 1); ("article-id", JInt 7)])])
  = Ok (Some (JInt 7)).
Proof.
  apply (positive_int_pae_printed (fun _ => Raise ValueError)
           (JObj [("message", JObj [("pae", JInt 1); ("article-id", JInt 7)])])
           [("pae", JInt 1); ("article-id", JInt 7)] (JInt 1) (JInt 7));
    [reflexivity | reflexivity | | reflexivity].
  right. exists 1%Z. split; [reflexivity | lia].
Defined.

(** ** Scan and sort together *)

Lemma prefix_contains (c : ascii) (p s : string) :
  String.prefix p s = true -> contains c p = true -> contains c s = true.
Proof.
  revert s. induction p as [|a p IH]; intros s; [discriminate 2|].
  destruct s as [|b s]; simpl; [discriminate|].
  destruct (ascii_dec a b) as [<-|]; [|discriminate].
  destruct (Ascii.eqb a c); [reflexivity | apply IH].
Qed.

Lemma sorter_without_slash (b : string) :
  contains "/" b = false -> sorter b = Raise IndexError.
Proof.
  intros Hb. apply sorter_raises_iff. repeat split; [|now left].
  destruct (startswith b articles_prefix) eqn:Hp; [|reflexivity].
  rewrite (prefix_contains "/" articles_prefix b Hp eq_refl) in Hb.
  discriminate.
Qed.

(** X19. A file name with whitespace before a last part without a slash
    (as in "image-cache/a:1/my file.png") stops the whole script: the scan
    cuts the path there, the cut-off part has no sort key, and the script
    raises [IndexError] before it clears or links anything. *)
Theorem whitespace_in_file_name_aborts
  (abspath : string -> string)
  (before after : list string) (a b : string) (c : ascii) :
  is_space c = true ->
  plain b -> contains "/" b = false ->
  main abspath
    (split_whitespace (unlines (before ++ [a ++ String c b] ++ after))) =
  Raise IndexError.
Proof.
  intros Hc Hb Hs. unfold main.
  assert (Hr : sorted sorter
                 (split_whitespace (unlines (before ++ [a ++ String c b] ++ after)))
               = Raise IndexError); [|now rewrite Hr].
  apply sorted_raises_iff. split; [reflexivity|].
  exists b. split; [|now apply sorter_without_slash].
  rewrite split_whitespace_unlines, !flat_map_app. cbn [flat_map].
  rewrite (split_whitespace_app c a b Hc), (split_whitespace_plain b Hb).
  apply in_or_app. right. apply in_or_app. left.
  apply in_or_app. left. apply in_or_app. right. now left.
Qed.

Lemma whitespace_in_file_name_aborts_witness :
  main (fun row => "/srv/" ++ row)
    (split_whitespace
       (unlines (["image-cache/articles/1/x"] ++
                 ["image-cache/a:1/my" ++ String " " "file.png"] ++ []))) =
  Raise IndexError.
Proof.
  apply (whitespace_in_file_name_aborts (fun row => "/srv/" ++ row)
           ["image-cache/articles/1/x"] [] "image-cache/a:1/my" "file.png" " ");
    [reflexivity | split; [discriminate | reflexivity] | reflexivity].
Defined.
